(** * blendergltf: the glTF export operator

    A shallow embedding of [ExportGLTF] (the Blender operator of
    [__init__.py]): its [check] callback, which keeps the file extension and
    the buffer flags consistent with the binary-mode flag, and its [execute]
    method, which filters the scene data, calls the conversion engine,
    completes the document the engine returns and writes it out.

    Python dictionaries used as maps are [gmap]s, dictionaries used as
    structures are records, Python floats are binary64 primitive floats, and
    exceptions and file operations are explicit results and events. *)

From Stdlib Require Import ZArith Strings.Ascii Floats.PrimFloat.
From stdpp Require Import gmap strings list fin_maps sorting.

Set Warnings "-inexact-float,-register-all".

(** ** Python strings

    A [str] is modelled by the bytes of its UTF-8 encoding.  The operations
    below only ever cut or compare ASCII suffixes, for which cutting bytes
    and cutting code points agree. *)

Fixpoint str_take (n : nat) (s : string) : string :=
  match n, s with
  | S n', String c s' => String c (str_take n' s')
  | _, _ => ""
  end.

Fixpoint str_drop (n : nat) (s : string) : string :=
  match n, s with
  | S n', String _ s' => str_drop n' s'
  | _, _ => s
  end.

(** [s.endswith(suffix)] *)
Definition endswith (s suffix : string) : bool :=
  bool_decide (String.length suffix ≤ String.length s)
  && String.eqb (str_drop (String.length s - String.length suffix) s) suffix.

(** [s[:-k]] for a literal [k > 0]: all of [s] but its last [k] characters,
    the empty string when [s] is shorter. *)
Definition slice_until_neg (k : nat) (s : string) : string :=
  str_take (String.length s - k) s.

(** ** Python values

    The values the operator handles without looking inside: JSON-like data of
    the document, table entries, extension settings.  [NpFloat32] is a
    [numpy.float32] scalar. *)

Inductive pyval :=
| PyNone
| PyBool (b : bool)
| PyInt (n : Z)
| PyFloat (x : float)
| NpFloat32 (x : float)
| PyStr (s : string)
| PyList (l : list pyval)
| PyTuple (l : list pyval)
| PyDict (d : gmap string pyval).

(** ** The operator's properties *)

Inductive anim_export := ACTIVE | ELIGIBLE.
Inductive image_storage := EMBED | REFERENCE | COPY.
Inductive asset_version_item := V1_0 | V2_0.
Inductive asset_profile_item := WEB | DESKTOP.
Inductive axis := AxisX | AxisY | AxisZ | AxisNegX | AxisNegY | AxisNegZ.

(** [Version(self.asset_version) < Version('2.0')] on the two items of
    [VERSION_ITEMS]. *)
Definition version_lt_2_0 (v : asset_version_item) : bool :=
  match v with V1_0 => true | V2_0 => false end.

(** The properties [as_keywords] copies into the settings: every property of
    the operator but [filter_glob], [axis_up] and [axis_forward].
    [check_existing] is the one [ExportHelper] declares besides [filepath];
    [extension_props] holds (name, enable) per [ExtPropertyGroup];
    [extension_settings] holds the [settings_<name>] pointer properties by
    extension name. *)
Record Keywords := {
  filepath : string;
  check_existing : bool;
  extension_props : list (string * bool);
  extension_settings : gmap string pyval;
  draft_prop : bool;
  nodes_export_hidden : bool;
  nodes_selected_only : bool;
  materials_disable : bool;
  meshes_apply_modifiers : bool;
  meshes_interleave_vertex_data : bool;
  animations_object_export : anim_export;
  animations_armature_export : anim_export;
  images_data_storage : image_storage;
  images_allow_srgb : bool;
  buffers_embed_data : bool;
  buffers_combine_data : bool;
  asset_version : asset_version_item;
  asset_profile : asset_profile_item;
  gltf_export_binary : bool;
  pretty_print : bool;
  blocks_prune_unused : bool;
  enable_actions : bool;
  enable_cameras : bool;
  enable_lamps : bool;
  enable_materials : bool;
  enable_meshes : bool;
  enable_textures : bool
}.

Definition set_filepath (v : string) (k : Keywords) : Keywords :=
  {| filepath := v;
     check_existing := check_existing k;
     extension_props := extension_props k;
     extension_settings := extension_settings k;
     draft_prop := draft_prop k;
     nodes_export_hidden := nodes_export_hidden k;
     nodes_selected_only := nodes_selected_only k;
     materials_disable := materials_disable k;
     meshes_apply_modifiers := meshes_apply_modifiers k;
     meshes_interleave_vertex_data := meshes_interleave_vertex_data k;
     animations_object_export := animations_object_export k;
     animations_armature_export := animations_armature_export k;
     images_data_storage := images_data_storage k;
     images_allow_srgb := images_allow_srgb k;
     buffers_embed_data := buffers_embed_data k;
     buffers_combine_data := buffers_combine_data k;
     asset_version := asset_version k;
     asset_profile := asset_profile k;
     gltf_export_binary := gltf_export_binary k;
     pretty_print := pretty_print k;
     blocks_prune_unused := blocks_prune_unused k;
     enable_actions := enable_actions k;
     enable_cameras := enable_cameras k;
     enable_lamps := enable_lamps k;
     enable_materials := enable_materials k;
     enable_meshes := enable_meshes k;
     enable_textures := enable_textures k |}.

Definition set_buffers_combine_data (v : bool) (k : Keywords) : Keywords :=
  {| filepath := filepath k;
     check_existing := check_existing k;
     extension_props := extension_props k;
     extension_settings := extension_settings k;
     draft_prop := draft_prop k;
     nodes_export_hidden := nodes_export_hidden k;
     nodes_selected_only := nodes_selected_only k;
     materials_disable := materials_disable k;
     meshes_apply_modifiers := meshes_apply_modifiers k;
     meshes_interleave_vertex_data := meshes_interleave_vertex_data k;
     animations_object_export := animations_object_export k;
     animations_armature_export := animations_armature_export k;
     images_data_storage := images_data_storage k;
     images_allow_srgb := images_allow_srgb k;
     buffers_embed_data := buffers_embed_data k;
     buffers_combine_data := v;
     asset_version := asset_version k;
     asset_profile := asset_profile k;
     gltf_export_binary := gltf_export_binary k;
     pretty_print := pretty_print k;
     blocks_prune_unused := blocks_prune_unused k;
     enable_actions := enable_actions k;
     enable_cameras := enable_cameras k;
     enable_lamps := enable_lamps k;
     enable_materials := enable_materials k;
     enable_meshes := enable_meshes k;
     enable_textures := enable_textures k |}.

(** ** Exceptions *)

Inductive exn :=
| KeyError
| IndexError
| TypeError
| EngineError (what : string).

Inductive result (A : Type) :=
| Ok (a : A)
| Raise (e : exn).
Arguments Ok {A} a.
Arguments Raise {A} e.

#[export] Instance result_ret : MRet result := @Ok.
#[export] Instance result_bind : MBind result := λ A B f m,
  match m with
  | Ok a => f a
  | Raise e => Raise e
  end.

(** A [for] loop whose body may raise: the state is threaded through the
    items in order, and the first exception ends the loop. *)
Fixpoint for_each {A S : Type} (body : A → S → result S) (xs : list A) (s : S)
    : result S :=
  match xs with
  | [] => Ok s
  | x :: xs' => s' ← body x s; for_each body xs' s'
  end.

(** One round of [for x in d.values(): body] where the body changes [x] in
    place (or raises): the changed value shows under its key. *)
Definition update_value {A : Type} (body : A → result A) (item : string * A)
    (d : gmap string A) : result (gmap string A) :=
  x ← body item.2; Ok (<[item.1 := x]> d).

(** The whole loop: the dictionary is walked item by item.  The order in
    which it hands out its items does not show in the result: the rounds
    write to distinct keys, and the bodies used below raise nothing but
    [KeyError]. *)
Definition for_values {A : Type} (body : A → result A) (d : gmap string A)
    : result (gmap string A) :=
  for_each (update_value body) (map_to_list d) d.

(** ** Blender data *)

Inductive lamp_type := POINT | SUN | SPOT | HEMI | AREA.

(** The classes of [bpy.types] a datablock can be an instance of; the lamp
    classes ([PointLamp], [SunLamp], ...) all derive from [bpy.types.Lamp]. *)
Inductive id_class :=
| IdAction | IdArmature | IdCamera | IdCurve | IdImage
| IdLamp (t : lamp_type)
| IdLattice | IdMaterial | IdMesh | IdMetaBall | IdScene | IdSpeaker
| IdTexture.

Record ID := { id_class_of : id_class; id_name : string }.

(** An object and the datablock it points to ([obj.data] is [None] for an
    empty). *)
Record Object := { ob_name : string; ob_data : option ID }.

(** [isinstance(obj.data, bpy.types.Camera)], [... Lamp], [... Mesh] *)
Definition isinstance_Camera (d : option ID) : bool :=
  match d with
  | Some {| id_class_of := IdCamera |} => true
  | _ => false
  end.

Definition isinstance_Lamp (d : option ID) : bool :=
  match d with
  | Some {| id_class_of := IdLamp _ |} => true
  | _ => false
  end.

Definition isinstance_Mesh (d : option ID) : bool :=
  match d with
  | Some {| id_class_of := IdMesh |} => true
  | _ => false
  end.

(** The collections of [bpy.data] the operator reads, and the [data]
    dictionary it hands to the engine, which has the same nine keys. *)
Record Data := {
  actions : list ID;
  cameras : list ID;
  lamps : list ID;
  images : list ID;
  materials : list ID;
  meshes : list ID;
  objects : list Object;
  scenes : list ID;
  textures : list ID
}.

(** [data['objects'] = v] *)
Definition set_objects (v : list Object) (data : Data) : Data :=
  {| actions := actions data;
     cameras := cameras data;
     lamps := lamps data;
     images := images data;
     materials := materials data;
     meshes := meshes data;
     objects := v;
     scenes := scenes data;
     textures := textures data |}.

(** ** Matrices

    [settings['nodes_global_matrix']] is the result of [to_4x4()]: four rows
    of four floats. *)

Record Vector := { v_0 : float; v_1 : float; v_2 : float; v_3 : float }.
Record Matrix := { row_0 : Vector; row_1 : Vector; row_2 : Vector; row_3 : Vector }.

(** [mathutils.Matrix.Identity(4)] *)
Definition Matrix_Identity_4 : Matrix :=
  {| row_0 := {| v_0 := 1; v_1 := 0; v_2 := 0; v_3 := 0 |};
     row_1 := {| v_0 := 0; v_1 := 1; v_2 := 0; v_3 := 0 |};
     row_2 := {| v_0 := 0; v_1 := 0; v_2 := 1; v_3 := 0 |};
     row_3 := {| v_0 := 0; v_1 := 0; v_2 := 0; v_3 := 1 |} |}%float.

(** [matrix[:]]: the list of the rows *)
Definition matrix_rows (m : Matrix) : list Vector :=
  [row_0 m; row_1 m; row_2 m; row_3 m].

(** ** The glTF document

    What [export_gltf] returns, typed by the way [execute] uses it: a
    dictionary with the sections ['scenes'], ['nodes'] and ['techniques'],
    each a dictionary by identifier, and possibly the key ['scene'].  A scene
    is a dictionary with the key ['nodes']; a technique one with the key
    ['parameters'], a dictionary of parameters; a parameter may have the keys
    ['value'] and ['type'].  Every other key is carried along in a [_rest]
    map.  The document is a tree: no dictionary is reachable by two paths. *)

Record Scene := {
  scene_nodes : pyval;
  scene_rest : gmap string pyval
}.

Record TechParameter := {
  param_type : option Z;
  param_value : option pyval;
  param_rest : gmap string pyval
}.

Record Technique := {
  technique_parameters : gmap string TechParameter;
  technique_rest : gmap string pyval
}.

Record Gltf := {
  gltf_scenes : gmap string Scene;
  gltf_nodes : gmap string pyval;
  gltf_scene : option pyval;
  gltf_techniques : gmap string Technique;
  gltf_rest : gmap string pyval
}.

(** What [export_gltf] hands back to [execute]: the document, or, as the
    binary branch of [execute] expects of it, [bytes].  (An object that is
    both a dictionary and [bytes] is not considered.) *)
Inductive returned :=
| Document (gltf : Gltf)
| Bytes (data : string).

(** [gltf[key]] for a string [key]: a dictionary is indexed by it; indexing
    [bytes] by a string raises [TypeError]. *)
Definition as_dict (gltf : returned) : result Gltf :=
  match gltf with
  | Document document => Ok document
  | Bytes _ => Raise TypeError
  end.

(** ** The operator and what surrounds it *)

(** An extension exporter object: [ext_meta['name']] and the attribute
    [settings] that [execute] assigns. *)
Record Exporter := {
  ext_meta_name : string;
  ext_settings : option pyval
}.

(** The state of an [ExportGLTF] instance: its properties and its plain
    attributes.  The values of [ext_prop_to_exporter_map] are the very
    objects of [ext_exporters] ([update_extensions] builds the dictionary
    from them), so what [execute] assigns to the exporters shows through the
    dictionary. *)
Record ExportGLTF := {
  properties : Keywords;
  axis_forward : axis;
  axis_up : axis;
  filename_ext : string;
  ext_exporters : list Exporter;
  ext_prop_to_exporter_map : gmap string Exporter
}.

Definition set_properties (k : Keywords) (self : ExportGLTF) : ExportGLTF :=
  {| properties := k;
     axis_forward := axis_forward self;
     axis_up := axis_up self;
     filename_ext := filename_ext self;
     ext_exporters := ext_exporters self;
     ext_prop_to_exporter_map := ext_prop_to_exporter_map self |}.

Definition set_filename_ext (v : string) (self : ExportGLTF) : ExportGLTF :=
  {| properties := properties self;
     axis_forward := axis_forward self;
     axis_up := axis_up self;
     filename_ext := v;
     ext_exporters := ext_exporters self;
     ext_prop_to_exporter_map := ext_prop_to_exporter_map self |}.

(** The [settings] dictionary handed to the engine: the keywords and the four
    keys [execute] adds. *)
Record Settings := {
  keywords : Keywords;
  gltf_output_dir : string;
  gltf_name : string;
  nodes_global_matrix : Matrix;
  extension_exporters : list Exporter
}.

(** What the operator calls and this repository's sources do not define:
    Blender's [ExportHelper.check], [axis_conversion(...).to_4x4()] and
    matrix comparison, numpy's cast to [float32], [os.path], the three
    filters of the [filters] module, the conversion engine
    [blendergltf.export_gltf], and [json.dump], which returns or raises
    (on a value it cannot serialize) after writing to the file. *)
Record Host := {
  ExportHelper_check : ExportGLTF → ExportGLTF * bool;
  axis_conversion : axis → axis → Matrix;
  Matrix_ne : Matrix → Matrix → bool;
  np_float32 : float → float;
  os_path_dirname : string → string;
  os_path_basename : string → string;
  os_path_splitext : string → string * string;
  visible_only : Data → Data;
  selected_only : Data → Data;
  used_only : Data → Data;
  export_gltf : Data → Settings → result returned;
  json_dump : Gltf → option Z → result unit
}.

(** What a call reads from its surroundings: the scene data of [bpy.data]
    and the clock ([perf_counter n] is what the call's [n]-th reading of
    [time.perf_counter()] returns). *)
Record World := {
  bpy_data : Data;
  perf_counter : nat → float
}.

(** ** Output events *)

(** What is written to a file: the text of the document's items line by
    line (the [.raw] file), what [json.dump(gltf, fout, indent=indent,
    sort_keys=True, check_circular=False)] writes (all of the JSON text
    when it returns), or a string. *)
Inductive payload :=
| Pay_items (gltf : Gltf)
| Pay_json (gltf : Gltf) (indent : option Z)
| Pay_str (s : string).

Inductive printed :=
| Printed_value (v : pyval)
| Printed_took (seconds : float).

Inductive event :=
| Ev_print (what : printed)
| Ev_open (path mode : string)
| Ev_write (path : string) (data : payload)
| Ev_close (path : string).

(** A computation that leaves a trace of events and returns or raises. *)
Record io (A : Type) := IO {
  io_trace : list event;
  io_result : result A
}.
Arguments IO {A} io_trace io_result.
Arguments io_trace {A} _.
Arguments io_result {A} _.

#[export] Instance io_ret : MRet io := λ A a, IO [] (Ok a).
#[export] Instance io_bind : MBind io := λ A B f m,
  match io_result m with
  | Ok a => IO (io_trace m ++ io_trace (f a)) (io_result (f a))
  | Raise e => IO (io_trace m) (Raise e)
  end.

Definition lift {A : Type} (r : result A) : io A := IO [] r.
Definition emit (e : event) : io unit := IO [e] (Ok tt).

(** [with open(path, mode) as f: body]: the file is closed when the body is
    left, also by an exception. *)
Definition with_open (path mode : string) (body : io unit) : io unit :=
  IO (Ev_open path mode :: io_trace body ++ [Ev_close path]) (io_result body).



(** The paths a trace opens, in order. *)
Definition opened (t : list event) : list string :=
  omap (λ e, match e with Ev_open path _ => Some path | _ => None end) t.

(** The trace without what is printed. *)
Definition is_print (e : event) : bool :=
  match e with Ev_print _ => true | _ => false end.


(** ** [ExportGLTF.check] *)

(** The first [if]/[elif] of [check]: the extension follows the binary-mode
    flag. *)
Definition check_extension (self : ExportGLTF) (redraw : bool)
    : ExportGLTF * bool :=
  let p := properties self in
  if gltf_export_binary p && endswith (filepath p) ".gltf" then
    (set_properties
       (set_filepath (slice_until_neg 4 (filepath p) +:+ "glb") p) self,
     true)
  else if negb (gltf_export_binary p) && endswith (filepath p) ".glb" then
    (set_properties
       (set_filepath (slice_until_neg 3 (filepath p) +:+ "gltf") p) self,
     true)
  else (self, redraw).

(** The second [if] of [check]: binary export of embedded buffers combines
    them. *)
Definition check_buffers (self : ExportGLTF) (redraw : bool)
    : ExportGLTF * bool :=
  let p := properties self in
  if gltf_export_binary p && buffers_embed_data p
     && negb (buffers_combine_data p) then
    (set_properties (set_buffers_combine_data true p) self, true)
  else (self, redraw).

(** [redraw or super().check(context)] calls the inherited [check] only when
    [redraw] is still false. *)
Definition check (host : Host) (self : ExportGLTF) : ExportGLTF * bool :=
  let redraw := false in
  let '(self, redraw) := check_extension self redraw in
  let '(self, redraw) := check_buffers self redraw in
  let self :=
    set_filename_ext
      (if gltf_export_binary (properties self) then ".glb" else ".gltf") self in
  if redraw then (self, true) else ExportHelper_check host self.

(** ** [ExportGLTF.execute]: the engine's input *)

(** The [data] dictionary as first built: a category that is not enabled
    gets the empty list. *)
Definition collect_data (self : ExportGLTF) (bpy : Data) : Data :=
  let p := properties self in
  {| actions := if enable_actions p then actions bpy else [];
     cameras := if enable_cameras p then cameras bpy else [];
     lamps := if enable_lamps p then lamps bpy else [];
     images := if enable_textures p then images bpy else [];
     materials := if enable_materials p then materials bpy else [];
     meshes := if enable_meshes p then meshes bpy else [];
     objects := objects bpy;
     scenes := scenes bpy;
     textures := if enable_textures p then textures bpy else [] |}.

(** "Remove objects that point to disabled data" *)
Definition remove_disabled_objects (self : ExportGLTF) (data : Data) : Data :=
  let p := properties self in
  let data :=
    if negb (enable_cameras p) then
      set_objects
        (List.filter (λ obj, negb (isinstance_Camera (ob_data obj)))
           (objects data)) data
    else data in
  let data :=
    if negb (enable_lamps p) then
      set_objects
        (List.filter (λ obj, negb (isinstance_Lamp (ob_data obj)))
           (objects data)) data
    else data in
  let data :=
    if negb (enable_meshes p) then
      set_objects
        (List.filter (λ obj, negb (isinstance_Mesh (ob_data obj)))
           (objects data)) data
    else data in
  data.

(** The [data] argument of [export_gltf]. *)
Definition engine_data (host : Host) (self : ExportGLTF) (bpy : Data) : Data :=
  let p := properties self in
  let data := remove_disabled_objects self (collect_data self bpy) in
  let data :=
    if negb (nodes_export_hidden p) then visible_only host data else data in
  let data :=
    if nodes_selected_only p then selected_only host data else data in
  let data :=
    if blocks_prune_unused p then used_only host data else data in
  data.

(** [ext_exporter.settings = getattr(self, 'settings_' + name, None)] *)
Definition attach_settings (self : ExportGLTF) (e : Exporter) : Exporter :=
  {| ext_meta_name := ext_meta_name e;
     ext_settings := extension_settings (properties self) !! ext_meta_name e |}.

(** The loop over [self.ext_exporters], the one place where [execute]
    changes the operator: every exporter object is assigned its settings,
    and so are the values of the dictionary, which are the same objects.
    The loop runs before anything in [execute] can raise, so this is the
    operator as every call leaves it. *)
Definition assign_settings (self : ExportGLTF) : ExportGLTF :=
  {| properties := properties self;
     axis_forward := axis_forward self;
     axis_up := axis_up self;
     filename_ext := filename_ext self;
     ext_exporters := attach_settings self <$> ext_exporters self;
     ext_prop_to_exporter_map :=
       attach_settings self <$> ext_prop_to_exporter_map self |}.

Definition is_builtin_mat_ext (self : ExportGLTF) (prop_name : string) : bool :=
  if version_lt_2_0 (asset_version (properties self)) then
    String.eqb prop_name "KHR_technique_webgl"
  else false.

(** The list comprehension for [settings['extension_exporters']]; the
    dictionary is indexed only for the properties that pass the condition. *)
Fixpoint select_exporters (self : ExportGLTF) (props : list (string * bool))
    : result (list Exporter) :=
  match props with
  | [] => Ok []
  | (name, enable) :: props' =>
      if enable
         && negb (materials_disable (properties self)
                  && is_builtin_mat_ext self name) then
        match ext_prop_to_exporter_map self !! name with
        | Some e =>
            es ← select_exporters self props';
            Ok (e :: es)
        | None => Raise KeyError
        end
      else select_exporters self props'
  end.

(** The [settings] argument of [export_gltf], built by an operator whose
    exporters have been assigned their settings. *)
Definition engine_settings (host : Host) (self : ExportGLTF) : result Settings :=
  let p := properties self in
  exporters ← select_exporters self (extension_props p);
  Ok {| keywords := p;
        gltf_output_dir := os_path_dirname host (filepath p);
        gltf_name :=
          (os_path_splitext host (os_path_basename host (filepath p))).1;
        nodes_global_matrix :=
          axis_conversion host (axis_forward self) (axis_up self);
        extension_exporters := exporters |}.

(** ** [ExportGLTF.execute]: completing the document *)

(** The tuple [matrix]: the entries row by row, cast to [float32]. *)
Definition matrix_tuple (host : Host) (m : Matrix) : pyval :=
  PyTuple
    ((λ x, NpFloat32 (np_float32 host x))
       <$> concat ((λ v, [v_0 v; v_1 v; v_2 v; v_3 v]) <$> matrix_rows m)).

(** ['%s_root' % scene_id] *)
Definition root_node_id_of (scene_id : string) : string :=
  scene_id +:+ "_root".

(** [{'children': scene['nodes'], 'matrix': matrix}] *)
Definition root_node_of (matrix : pyval) (scene : Scene) : pyval :=
  PyDict (<["children" := scene_nodes scene]> (<["matrix" := matrix]> ∅)).

(** The body of the loop over [gltf['scenes'].items()].  [scene] is the
    scene object itself: assigning to its key ['nodes'] shows in the
    document. *)
Definition add_root_node (matrix : pyval) (gltf : Gltf) (item : string * Scene)
    : Gltf :=
  let '(scene_id, scene) := item in
  let root_node := root_node_of matrix scene in
  let root_node_id := root_node_id_of scene_id in
  {| gltf_scenes :=
       <[scene_id := {| scene_nodes := PyList [PyStr root_node_id];
                        scene_rest := scene_rest scene |}]> (gltf_scenes gltf);
     gltf_nodes := <[root_node_id := root_node]> (gltf_nodes gltf);
     gltf_scene := gltf_scene gltf;
     gltf_techniques := gltf_techniques gltf;
     gltf_rest := gltf_rest gltf |}.

(** The loop itself.  The order in which the dictionary hands out its
    items does not show in the result (see [foldl_add_root_node_order]). *)
Definition add_root_nodes_loop (matrix : pyval) (gltf : Gltf) : Gltf :=
  foldl (add_root_node matrix) gltf (map_to_list (gltf_scenes gltf)).

(** The first [if] after the engine's return.  [gltf['scenes']] is where
    [gltf] is first indexed, after the matrix is printed. *)
Definition add_root_nodes (host : Host) (settings : Settings) (gltf : returned)
    : io returned :=
  if Matrix_ne host (nodes_global_matrix settings) Matrix_Identity_4 then
    let matrix := matrix_tuple host (nodes_global_matrix settings) in
    emit (Ev_print (Printed_value matrix));;
    document ← lift (as_dict gltf);
    mret (Document (add_root_nodes_loop matrix document))
  else mret gltf.

(** [sorted] on strings: Python compares them by code point, which on UTF-8
    bytes is the byte order. *)
Definition sorted (l : list string) : list string := merge_sort String.le l.

(** [if gltf['scenes']: gltf['scene'] = sorted(gltf['scenes'].keys())[0]];
    from here on [gltf] is known to be a dictionary. *)
Definition set_default_scene (gltf : returned) : result Gltf :=
  gltf ← as_dict gltf;
  if negb (bool_decide (gltf_scenes gltf = ∅)) then
    match sorted (map_to_list (gltf_scenes gltf)).*1 with
    | scene_id :: _ =>
        Ok {| gltf_scenes := gltf_scenes gltf;
              gltf_nodes := gltf_nodes gltf;
              gltf_scene := Some (PyStr scene_id);
              gltf_techniques := gltf_techniques gltf;
              gltf_rest := gltf_rest gltf |}
    | [] => Raise IndexError
    end
  else Ok gltf.

Definition _DEFAULT_VALUES_BY_PARAM_TYPE : gmap Z pyval :=
  list_to_map
    [ (5124%Z, PyInt 1) (* GL_INT *);
      (5126%Z, PyFloat 1.0) (* GL_FLOAT *);
      (35664%Z, PyTuple [PyFloat 1.0; PyFloat 1.0]) (* GL_FLOAT_VEC2 *);
      (35665%Z, PyTuple [PyFloat 1.0; PyFloat 1.0; PyFloat 1.0])
        (* GL_FLOAT_VEC3 *);
      (35666%Z, PyTuple [PyFloat 1.0; PyFloat 1.0; PyFloat 1.0; PyFloat 1.0])
        (* GL_FLOAT_VEC4 *);
      (35674%Z, PyTuple [PyFloat 1.0; PyFloat 0.0; PyFloat 0.0; PyFloat 1.0])
        (* GL_FLOAT_MAT2 *);
      (35675%Z, PyTuple [PyFloat 1.0; PyFloat 0.0; PyFloat 0.0;
                       PyFloat 0.0; PyFloat 1.0; PyFloat 0.0;
                       PyFloat 0.0; PyFloat 0.0; PyFloat 1.0])
        (* GL_FLOAT_MAT3 *);
      (35676%Z, PyTuple [PyFloat 1.0; PyFloat 0.0; PyFloat 0.0; PyFloat 0.0;
                       PyFloat 0.0; PyFloat 1.0; PyFloat 0.0; PyFloat 0.0;
                       PyFloat 0.0; PyFloat 0.0; PyFloat 1.0; PyFloat 0.0;
                       PyFloat 0.0; PyFloat 0.0; PyFloat 0.0; PyFloat 1.0])
        (* GL_FLOAT_MAT4 *) ].

(** [parameter['value'] = v] *)
Definition set_param_value (v : pyval) (parameter : TechParameter)
    : TechParameter :=
  {| param_type := param_type parameter;
     param_value := Some v;
     param_rest := param_rest parameter |}.

(** The body of the inner loop: a parameter that has the key ['value'] with
    the value [None] gets the table's entry for its ['type']; indexing raises
    [KeyError] when the parameter has no ['type'] or the table no such key. *)
Definition fill_default_value (parameter : TechParameter) : result TechParameter :=
  match param_value parameter with
  | Some PyNone =>
      match param_type parameter with
      | Some type =>
          match _DEFAULT_VALUES_BY_PARAM_TYPE !! type with
          | Some v => Ok (set_param_value v parameter)
          | None => Raise KeyError
          end
      | None => Raise KeyError
      end
  | _ => Ok parameter
  end.

(** The two loops.  Only parameters are assigned to; the technique that
    holds them is rebuilt around the changed dictionary. *)
Definition fill_technique (technique : Technique) : result Technique :=
  parameters ← for_values fill_default_value (technique_parameters technique);
  Ok {| technique_parameters := parameters;
        technique_rest := technique_rest technique |}.

Definition fill_default_values (gltf : Gltf) : result Gltf :=
  techniques ← for_values fill_technique (gltf_techniques gltf);
  Ok {| gltf_scenes := gltf_scenes gltf;
        gltf_nodes := gltf_nodes gltf;
        gltf_scene := gltf_scene gltf;
        gltf_techniques := techniques;
        gltf_rest := gltf_rest gltf |}.

(** What [execute] does to the document between the engine's return and the
    second reading of the clock. *)
Definition assemble (host : Host) (settings : Settings) (gltf : returned)
    : io Gltf :=
  gltf ← add_root_nodes host settings gltf;
  gltf ← lift (set_default_scene gltf);
  lift (fill_default_values gltf).

(** ** [ExportGLTF.execute]: writing, and the whole method *)

Definition newline : string := String (Ascii.ascii_of_nat 10) "".

(** The last [if] of [execute].  In its binary branch [fout.write(gltf)]
    is handed [gltf], a dictionary by now (it was indexed by strings above):
    the [write] of a file opened in binary mode takes bytes and raises
    [TypeError] on anything else, with nothing written. *)
Definition write_files (host : Host) (self : ExportGLTF) (gltf : Gltf) : io unit :=
  let p := properties self in
  if gltf_export_binary p then
    with_open (filepath p) "wb" (lift (Raise TypeError))
  else
    with_open (filepath p +:+ ".raw") "w"
      (emit (Ev_write (filepath p +:+ ".raw") (Pay_items gltf)));;
    with_open (filepath p) "w"
      (let indent := if pretty_print p then Some 4%Z else None in
       emit (Ev_write (filepath p) (Pay_json gltf indent));;
       lift (json_dump host gltf indent);;
       if pretty_print p then emit (Ev_write (filepath p) (Pay_str newline))
       else mret tt).

Inductive status := FINISHED.

Definition execute (host : Host) (world : World) (self : ExportGLTF) : io status :=
  let data := engine_data host self (bpy_data world) in
  let self := assign_settings self in
  settings ← lift (engine_settings host self);
  let start_time := perf_counter world 0 in
  gltf ← lift (export_gltf host data settings);
  gltf ← assemble host settings gltf;
  let end_time := perf_counter world 1 in
  emit (Ev_print (Printed_took (end_time - start_time)%float));;
  write_files host self gltf;;
  mret FINISHED.

(** ** The camera converter *)

Inductive camera_type := PERSP | ORTHO.

(** A camera as the tests' fixture [bpy_camera_default] sets it up; an angle
    that is not available is [None]. *)
Record bpy_camera := {
  camera_name : string;
  camera_kind : camera_type;
  angle_x : option float;
  angle_y : option float;
  clip_end : float;
  clip_start : float;
  ortho_scale : float
}.

Record gltf_perspective := {
  aspectRatio : option float;
  yfov : option float;
  zfar : float;
  znear : float
}.

Record gltf_camera := {
  gltf_camera_name : string;
  perspective : gltf_perspective;
  gltf_camera_type : string
}.

(** Modelled from the spec: the camera converter of the conversion engine
    ([export_camera] of [blendergltf.py]), which is not among the sources;
    only the fixtures of its test are.  "Perspective cameras emit
    yfov/aspectRatio/znear/zfar; [...] aspect ratio is computed from the two
    field-of-view angles when both are available, otherwise omitted", with
    the fields of scenario A: [yfov] is [angle_y], [znear] and [zfar] are the
    clip distances, and the ratio is [angle_x / angle_y].  The record of an
    orthographic camera (its magnification extents) is not modelled. *)
Definition export_camera (camera : bpy_camera) : option gltf_camera :=
  match camera_kind camera with
  | PERSP =>
      Some {| gltf_camera_name := camera_name camera;
              perspective :=
                {| aspectRatio :=
                     match angle_x camera, angle_y camera with
                     | Some x, Some y => Some (x / y)%float
                     | _, _ => None
                     end;
                   yfov := angle_y camera;
                   zfar := clip_end camera;
                   znear := clip_start camera |};
              gltf_camera_type := "perspective" |}
  | ORTHO => None
  end.

(** The fixtures [bpy_camera_default] and [gltf_camera_default] of
    [tests/conftest.py]. *)
Definition bpy_camera_default : bpy_camera :=
  {| camera_name := "Camera";
     camera_kind := PERSP;
     angle_x := Some 0.8575560450553894%float;
     angle_y := Some 0.5033799409866333%float;
     clip_end := 100.0;
     clip_start := 0.10000000149011612;
     ortho_scale := 7.314285755157471 |}.

Definition gltf_camera_default : gltf_camera :=
  {| gltf_camera_name := "Camera";
     perspective :=
       {| aspectRatio := Some 1.703595982340029%float;
          yfov := Some 0.5033799409866333%float;
          zfar := 100.0;
          znear := 0.10000000149011612 |};
     gltf_camera_type := "perspective" |}.

(** ** What the filters are taken to do

    The [filters] module is not among the sources.  Its three functions are
    taken to select: each list of the result holds only entries of the same
    list of the argument. *)

Definition data_within (d' d : Data) : Prop :=
  actions d' ⊆ actions d ∧ cameras d' ⊆ cameras d ∧ lamps d' ⊆ lamps d
  ∧ images d' ⊆ images d ∧ materials d' ⊆ materials d
  ∧ meshes d' ⊆ meshes d ∧ objects d' ⊆ objects d ∧ scenes d' ⊆ scenes d
  ∧ textures d' ⊆ textures d.

Definition selects (f : Data → Data) : Prop := ∀ d, data_within (f d) d.

(** Nothing of a disabled category is in [data]: its list is empty and no
    object points to a datablock of its class. *)
Definition disabled_absent (p : Keywords) (data : Data) : Prop :=
  (enable_cameras p = false →
   cameras data = []
   ∧ ∀ obj, obj ∈ objects data → isinstance_Camera (ob_data obj) = false)
  ∧ (enable_lamps p = false →
     lamps data = []
     ∧ ∀ obj, obj ∈ objects data → isinstance_Lamp (ob_data obj) = false)
  ∧ (enable_meshes p = false →
     meshes data = []
     ∧ ∀ obj, obj ∈ objects data → isinstance_Mesh (ob_data obj) = false).

(** ** A small scene, a host and an operator to run the model on *)

Module Sample.

(** The split of a path at its last separator [c]: what precedes it and
    what follows, or nothing when [c] does not occur. *)
Fixpoint rsplit (c : Ascii.ascii) (s : string) : option (string * string) :=
  match s with
  | "" => None
  | String a s' =>
      match rsplit c s' with
      | Some (before, after) => Some (String a before, after)
      | None => if Ascii.eqb a c then Some ("", s') else None
      end
  end.

Definition dirname (path : string) : string :=
  match rsplit "/"%char path with Some (dir, _) => dir | None => "" end.

Definition basename (path : string) : string :=
  match rsplit "/"%char path with Some (_, base) => base | None => path end.

Definition splitext (path : string) : string * string :=
  match rsplit "."%char path with
  | Some (root, ext) => if String.eqb root "" then (path, "") else (root, "." +:+ ext)
  | None => (path, "")
  end.

Definition vector_eqb (u v : Vector) : bool :=
  PrimFloat.eqb (v_0 u) (v_0 v) && PrimFloat.eqb (v_1 u) (v_1 v)
  && PrimFloat.eqb (v_2 u) (v_2 v) && PrimFloat.eqb (v_3 u) (v_3 v).

Definition matrix_eqb (m n : Matrix) : bool :=
  vector_eqb (row_0 m) (row_0 n) && vector_eqb (row_1 m) (row_1 n)
  && vector_eqb (row_2 m) (row_2 n) && vector_eqb (row_3 m) (row_3 n).

(** A rotation that turns the Z-up scene into a Y-up one. *)
Definition y_up : Matrix :=
  {| row_0 := {| v_0 := -1; v_1 := 0; v_2 := 0; v_3 := 0 |};
     row_1 := {| v_0 := 0; v_1 := 0; v_2 := 1; v_3 := 0 |};
     row_2 := {| v_0 := 0; v_1 := 1; v_2 := 0; v_3 := 0 |};
     row_3 := {| v_0 := 0; v_1 := 0; v_2 := 0; v_3 := 1 |} |}%float.

(** A legacy technique with two unset parameters, a float and a 4x4 matrix,
    one parameter that has a value and one that has no ['value'] at all. *)
Definition technique : Technique :=
  {| technique_parameters :=
       list_to_map
         [ ("shininess",
            {| param_type := Some 5126%Z; param_value := Some PyNone;
               param_rest := ∅ |});
           ("texMatrix",
            {| param_type := Some 35676%Z; param_value := Some PyNone;
               param_rest := ∅ |});
           ("alpha",
            {| param_type := Some 5126%Z;
               param_value := Some (PyFloat 0.5);
               param_rest := ∅ |});
           ("modelViewMatrix",
            {| param_type := Some 35676%Z; param_value := None;
               param_rest := {[ "semantic" := PyStr "MODELVIEW" ]} |}) ];
     technique_rest := ∅ |}.

(** A document with a node for every object and, for every scene, a scene
    whose roots are all the nodes. *)
Definition document_of (data : Data) : Gltf :=
  {| gltf_scenes :=
       list_to_map
         ((λ s, (id_name s,
                 {| scene_nodes := PyList (PyStr ∘ ob_name <$> objects data);
                    scene_rest := ∅ |})) <$> scenes data);
     gltf_nodes :=
       list_to_map
         ((λ o, (ob_name o, PyDict {[ "name" := PyStr (ob_name o) ]}))
            <$> objects data);
     gltf_scene := None;
     gltf_techniques := {[ "technique_Material" := technique ]};
     gltf_rest := {[ "asset" := PyDict {[ "version" := PyStr "1.0" ]} ]} |}.

(** An engine that returns it. *)
Definition engine (data : Data) (settings : Settings) : result returned :=
  Ok (Document (document_of data)).

(** [json.dump] on the documents of this module, as the standard encoder
    behaves: it raises [TypeError] when the matrix of a node holds a
    [numpy.float32], which is not a Python [float], and returns otherwise. *)
Definition is_float32 (v : pyval) : bool :=
  match v with NpFloat32 _ => true | _ => false end.

Definition serializable (node : pyval) : bool :=
  match node with
  | PyDict d =>
      match d !! "matrix" with
      | Some (PyTuple l) => List.forallb (λ v, negb (is_float32 v)) l
      | _ => true
      end
  | _ => true
  end.

Definition dump (gltf : Gltf) (indent : option Z) : result unit :=
  if List.forallb serializable (map_to_list (gltf_nodes gltf)).*2 then Ok tt
  else Raise TypeError.

(** A host whose inherited [check] and whose filters change nothing, whose
    matrices compare entry by entry, and whose cast to [float32] is exact
    (as it is on 0, 1 and -1). *)
Definition host : Host :=
  {| ExportHelper_check := λ self, (self, false);
     axis_conversion := λ forward up,
       match forward, up with
       | AxisY, AxisZ => Matrix_Identity_4
       | _, _ => y_up
       end;
     Matrix_ne := λ m n, negb (matrix_eqb m n);
     np_float32 := λ x, x;
     os_path_dirname := dirname;
     os_path_basename := basename;
     os_path_splitext := splitext;
     visible_only := λ data, data;
     selected_only := λ data, data;
     used_only := λ data, data;
     export_gltf := engine;
     json_dump := dump |}.

(** A technique with an unset texture parameter ([GL_SAMPLER_2D], 35678),
    a type the table has no entry for, and an engine and a host that return
    it. *)
Definition technique_textured : Technique :=
  {| technique_parameters :=
       {[ "diffuse" := {| param_type := Some 35678%Z;
                          param_value := Some PyNone;
                          param_rest := ∅ |} ]};
     technique_rest := ∅ |}.

Definition document_textured (data : Data) : Gltf :=
  {| gltf_scenes := gltf_scenes (document_of data);
     gltf_nodes := gltf_nodes (document_of data);
     gltf_scene := None;
     gltf_techniques := {[ "technique_Textured" := technique_textured ]};
     gltf_rest := gltf_rest (document_of data) |}.

Definition engine_textured (data : Data) (settings : Settings) : result returned :=
  Ok (Document (document_textured data)).

Definition host_textured : Host :=
  {| ExportHelper_check := ExportHelper_check host;
     axis_conversion := axis_conversion host;
     Matrix_ne := Matrix_ne host;
     np_float32 := np_float32 host;
     os_path_dirname := dirname;
     os_path_basename := basename;
     os_path_splitext := splitext;
     visible_only := visible_only host;
     selected_only := selected_only host;
     used_only := used_only host;
     export_gltf := engine_textured;
     json_dump := json_dump host |}.

Definition camera_data : ID := {| id_class_of := IdCamera; id_name := "Camera" |}.
Definition lamp_data : ID := {| id_class_of := IdLamp POINT; id_name := "Lamp" |}.
Definition mesh_data : ID := {| id_class_of := IdMesh; id_name := "Cube" |}.

Definition bpy : Data :=
  {| actions := [];
     cameras := [camera_data];
     lamps := [lamp_data];
     images := [];
     materials := [{| id_class_of := IdMaterial; id_name := "Material" |}];
     meshes := [mesh_data];
     objects := [ {| ob_name := "Camera"; ob_data := Some camera_data |};
                  {| ob_name := "Lamp"; ob_data := Some lamp_data |};
                  {| ob_name := "Cube"; ob_data := Some mesh_data |};
                  {| ob_name := "Empty"; ob_data := None |} ];
     scenes := [ {| id_class_of := IdScene; id_name := "Scene" |};
                 {| id_class_of := IdScene; id_name := "Backdrop" |} ];
     textures := [] |}.

Definition world (t0 t1 : float) : World :=
  {| bpy_data := bpy;
     perf_counter := λ n, match n with 0 => t0 | _ => t1 end |}.

(** The operator with the defaults of its properties, but for the path, the
    binary-mode flag, the two buffer flags, the three category flags and the
    version, which is 1.0, the one whose documents have techniques. *)
Definition keywords_of (path : string) (binary embed combine : bool)
    (cameras lamps meshes : bool) : Keywords :=
  {| filepath := path;
     check_existing := true;
     extension_props := [];
     extension_settings := ∅;
     draft_prop := false;
     nodes_export_hidden := false;
     nodes_selected_only := false;
     materials_disable := false;
     meshes_apply_modifiers := true;
     meshes_interleave_vertex_data := false;
     animations_object_export := ACTIVE;
     animations_armature_export := ELIGIBLE;
     images_data_storage := COPY;
     images_allow_srgb := false;
     buffers_embed_data := embed;
     buffers_combine_data := combine;
     asset_version := V1_0;
     asset_profile := WEB;
     gltf_export_binary := binary;
     pretty_print := true;
     blocks_prune_unused := true;
     enable_actions := true;
     enable_cameras := cameras;
     enable_lamps := lamps;
     enable_meshes := meshes;
     enable_materials := true;
     enable_textures := true |}.

Definition operator (k : Keywords) (forward up : axis) : ExportGLTF :=
  {| properties := k;
     axis_forward := forward;
     axis_up := up;
     filename_ext := "";
     ext_exporters := [];
     ext_prop_to_exporter_map := ∅ |}.

Definition settings_of (k : Keywords) (matrix : Matrix) : Settings :=
  {| keywords := k;
     gltf_output_dir := "/tmp";
     gltf_name := "scene";
     nodes_global_matrix := matrix;
     extension_exporters := [] |}.

(** The sample document as [assemble] completes it under a root transform. *)
Definition assembled (matrix : Matrix) : Gltf :=
  match
    io_result
      (assemble host
         (settings_of (keywords_of "/tmp/scene.gltf" false false true true true true)
            matrix)
         (Document (document_of bpy)))
  with
  | Ok gltf => gltf
  | Raise _ => document_of bpy
  end.

End Sample.

(** ** Files as scoped resources

    Whether a trace handles files the way a sequence of [with open(...)]
    blocks does: at most one file is open at a time ([current]), a file is
    written to only while it is open, and it is closed before the next one
    is opened and before the trace ends. *)
Fixpoint scoped (current : option string) (t : list event) : bool :=
  match t with
  | [] => bool_decide (current = None)
  | Ev_print _ :: t' => scoped current t'
  | Ev_open path _ :: t' => bool_decide (current = None) && scoped (Some path) t'
  | Ev_write path _ :: t' => bool_decide (current = Some path) && scoped current t'
  | Ev_close path :: t' => bool_decide (current = Some path) && scoped None t'
  end.

(** Whether [execute]'s own filtering keeps an object: it points to no
    datablock of a disabled category among cameras, lamps and meshes. *)
Definition is_kept (self : ExportGLTF) (obj : Object) : bool :=
  let p := properties self in
  (enable_cameras p || negb (isinstance_Camera (ob_data obj)))
  && (enable_lamps p || negb (isinstance_Lamp (ob_data obj)))
  && (enable_meshes p || negb (isinstance_Mesh (ob_data obj))).

(** ** [ExportGLTF.update_extensions]

    The method reads and writes the entry ['enable'] of the exporters'
    [ext_meta], which [Exporter] does not hold.  These entries are kept
    beside the operator, as a list with one entry per exporter of
    [ext_exporters], in order; an exporter object is referred to by its
    position in that list, and every exporter has an [ext_meta] of its
    own. *)

(** [self.extension_props.clear()] and the [add()]s after it. *)
Definition set_extension_props (v : list (string * bool)) (k : Keywords) : Keywords :=
  {| filepath := filepath k;
     check_existing := check_existing k;
     extension_props := v;
     extension_settings := extension_settings k;
     draft_prop := draft_prop k;
     nodes_export_hidden := nodes_export_hidden k;
     nodes_selected_only := nodes_selected_only k;
     materials_disable := materials_disable k;
     meshes_apply_modifiers := meshes_apply_modifiers k;
     meshes_interleave_vertex_data := meshes_interleave_vertex_data k;
     animations_object_export := animations_object_export k;
     animations_armature_export := animations_armature_export k;
     images_data_storage := images_data_storage k;
     images_allow_srgb := images_allow_srgb k;
     buffers_embed_data := buffers_embed_data k;
     buffers_combine_data := buffers_combine_data k;
     asset_version := asset_version k;
     asset_profile := asset_profile k;
     gltf_export_binary := gltf_export_binary k;
     pretty_print := pretty_print k;
     blocks_prune_unused := blocks_prune_unused k;
     enable_actions := enable_actions k;
     enable_cameras := enable_cameras k;
     enable_lamps := enable_lamps k;
     enable_materials := enable_materials k;
     enable_meshes := enable_meshes k;
     enable_textures := enable_textures k |}.

(** [self.ext_prop_to_exporter_map = v] *)
Definition set_ext_prop_to_exporter_map (v : gmap string Exporter)
    (self : ExportGLTF) : ExportGLTF :=
  {| properties := properties self;
     axis_forward := axis_forward self;
     axis_up := axis_up self;
     filename_ext := filename_ext self;
     ext_exporters := ext_exporters self;
     ext_prop_to_exporter_map := v |}.

(** [{ext.ext_meta['name']: ext for ext in self.ext_exporters}]: of two
    exporters of the same name the later one stays. *)
Definition exporter_map (exporters : list Exporter) : gmap string Exporter :=
  foldl (λ m ext, <[ext_meta_name ext := ext]> m) ∅ exporters.

(** The same dictionary with, for every value, its position in the list. *)
Definition exporter_positions (exporters : list Exporter) : gmap string nat :=
  foldl (λ m item, <[ext_meta_name item.2 := item.1]> m) ∅ (imap pair exporters).

(** The body of the loop over [self.extension_props]: the exporter found
    under the property's name gets the property's [enable]; indexing the
    dictionary raises [KeyError] when no exporter has that name. *)
Definition set_enable (positions : gmap string nat) (prop : string * bool)
    (enables : list bool) : result (list bool) :=
  match positions !! prop.1 with
  | Some i => Ok (<[i := prop.2]> enables)
  | None => Raise KeyError
  end.

(** The body of the last loop: the property added for an exporter, whose
    ['enable'] entry is [enable]. *)
Definition add_prop (self : ExportGLTF) (exporter : Exporter) (enable : bool)
    : string * bool :=
  let name := ext_meta_name exporter in
  let enable :=
    if String.eqb name "KHR_technique_webgl"
    then version_lt_2_0 (asset_version (properties self))
    else enable in
  (name, enable).

(** The method: the operator it leaves, and the ['enable'] entries of the
    exporters. *)
Definition update_extensions (self : ExportGLTF) : result (ExportGLTF * list bool) :=
  let exporters := ext_exporters self in
  let self := set_ext_prop_to_exporter_map (exporter_map exporters) self in
  let enables := replicate (length exporters) false in
  enables ←
    for_each (set_enable (exporter_positions exporters))
      (extension_props (properties self)) enables;
  let props := zip_with (add_prop self) exporters enables in
  Ok (set_properties (set_extension_props props (properties self)) self, enables).

(** The condition of the list comprehension in [execute], on a property:
    [prop.enable and not (self.materials_disable and
    is_builtin_mat_ext(prop.name))]. *)
Definition is_selected (self : ExportGLTF) (prop : string * bool) : bool :=
  prop.2
  && negb (materials_disable (properties self) && is_builtin_mat_ext self prop.1).

(** ** [ExportGLTF.draw]

    The layout [draw] builds is a tree: a sub-layout ([box], [column],
    [row]) holds the items added to it, in the order of the calls.  A widget
    records the arguments of its call, with Blender's defaults for the ones
    [draw] does not give ([icon='NONE'], [toggle=False], [emboss=True],
    [align=False], [enabled = True]). *)

(** Whose property a widget shows: the operator's, that of the [i]-th
    extension property, or that of the settings group of an extension. *)
Inductive owner :=
| Owner_self
| Owner_extension_prop (i : nat)
| Owner_settings (name : string).

Inductive item :=
| Ui_label (text icon : string)
| Ui_prop (data : owner) (property : string) (text : option string)
    (icon : string) (toggle emboss : bool)
| Ui_operator (idname icon : string) (emboss : bool) (url : pyval)
| Ui_separator
| Ui_box (items : list item)
| Ui_column (align enabled : bool) (items : list item)
| Ui_row (align : bool) (items : list item).

(** What [draw] reads of an exporter besides its name, and of a settings
    group: whether [ext_meta.get('isDraft', False)] is true,
    [ext_meta.get('url', '')], the method [draw_settings] if the exporter
    has one (as what it adds to the box it is given), and [dir(settings)]. *)
Record Ui := {
  ext_meta_isDraft : Exporter → bool;
  ext_meta_url : Exporter → pyval;
  draw_settings : Exporter → option (pyval → list item);
  dir : pyval → list string
}.

(** [draw] raises what [update_extensions] and indexing a dictionary raise,
    and [AttributeError], from [getattr] without a default. *)
Inductive draw_exn :=
| Exn (e : exn)
| AttributeError.

(** How [draw] ends: it returns, leaving the operator as
    [update_extensions] left it, or it raises. *)
Inductive draw_end :=
| Drawn (self : ExportGLTF)
| Draw_raises (e : draw_exn).

(** [layout.prop(self, property)] and [layout.prop(self, property,
    toggle=True)] *)
Definition self_prop (property : string) : item :=
  Ui_prop Owner_self property None "NONE" false true.

Definition toggle_prop (property : string) : item :=
  Ui_prop Owner_self property None "NONE" true true.

Definition enable_box : item :=
  Ui_box
    [Ui_column true true
       [ Ui_label "Enable:" "NONE";
         Ui_row true
           [toggle_prop "enable_actions"; toggle_prop "enable_cameras";
            toggle_prop "enable_lamps"];
         Ui_row true
           [toggle_prop "enable_materials"; toggle_prop "enable_meshes";
            toggle_prop "enable_textures"] ]].

Definition axis_box : item :=
  Ui_box
    [Ui_column false true
       [ Ui_label "Axis Conversion:" "MANIPUL";
         self_prop "axis_up"; self_prop "axis_forward" ]].

Definition nodes_box : item :=
  Ui_box
    [Ui_column false true
       [ Ui_label "Nodes:" "OBJECT_DATA";
         self_prop "nodes_export_hidden"; self_prop "nodes_selected_only" ]].

Definition meshes_box : item :=
  Ui_box
    [Ui_column false true
       [ Ui_label "Meshes:" "MESH_DATA";
         self_prop "meshes_apply_modifiers";
         self_prop "meshes_interleave_vertex_data" ]].

(** The box of the materials.  [getattr(self, 'settings_KHR_technique_webgl')]
    has no default: it raises [AttributeError] when the operator has no
    such settings group, after the label and the first property are drawn. *)
Definition materials_box (self : ExportGLTF) : item * option draw_exn :=
  let p := properties self in
  let head :=
    [Ui_label "Materials:" "MATERIAL_DATA"; self_prop "materials_disable"] in
  if version_lt_2_0 (asset_version p) then
    match extension_settings p !! "KHR_technique_webgl" with
    | Some _ =>
        (Ui_box
           [Ui_column false true
              (head ++ [Ui_prop (Owner_settings "KHR_technique_webgl")
                          "embed_shaders" None "NONE" false true])],
         None)
    | None => (Ui_box [Ui_column false true head], Some AttributeError)
    end
  else (Ui_box [Ui_column false true head], None).

Definition animations_box : item :=
  Ui_box
    [Ui_column false true
       [ Ui_label "Animations:" "ACTION";
         self_prop "animations_armature_export";
         self_prop "animations_object_export" ]].

Definition images_box (self : ExportGLTF) : item :=
  Ui_box
    [Ui_column false true
       ([Ui_label "Images:" "IMAGE_DATA"; self_prop "images_data_storage"]
        ++ if version_lt_2_0 (asset_version (properties self))
           then [self_prop "images_allow_srgb"] else [])].

(** The box of the buffers: the property [buffers_combine_data] sits in a
    column of its own, which is enabled unless binary export and embedding
    are both on. *)
Definition buffers_box (self : ExportGLTF) : item :=
  let p := properties self in
  Ui_box
    [Ui_column false true
       [ Ui_label "Buffers:" "SORTALPHA";
         self_prop "buffers_embed_data";
         Ui_column false
           (negb (gltf_export_binary p) || negb (buffers_embed_data p))
           [self_prop "buffers_combine_data"] ]].

(** [not name.startswith('_') and name not in ('bl_rna', 'name',
    'rna_type')] *)
Definition is_setting_prop (name : string) : bool :=
  negb (String.prefix "_" name)
  && negb (bool_decide (name ∈ ["bl_rna"; "name"; "rna_type"])).

(** The box with the settings of an enabled extension: what the exporter's
    [draw_settings] draws, or a property for every name of
    [dir(settings)] that passes the condition.  [name] is [prop.name],
    under which the settings group was found. *)
Definition settings_box (ui : Ui) (ext : Exporter) (name : string)
    (settings : pyval) : item :=
  Ui_box
    match draw_settings ui ext with
    | Some draw => draw settings
    | None =>
        (λ setting_prop,
           Ui_prop (Owner_settings name) setting_prop None "NONE" false true)
          <$> List.filter is_setting_prop (dir ui settings)
    end.

(** One round of the loop over [range(len(self.extension_props))]: the
    items it adds to the column.  Indexing the dictionary raises [KeyError]
    when it has no exporter under the property's name; the exporter named
    [KHR_technique_webgl] is passed over; a settings group, being a
    property group, is true. *)
Definition extension_items (ui : Ui) (self : ExportGLTF) (i : nat)
    (prop : string * bool) : result (list item) :=
  match ext_prop_to_exporter_map self !! prop.1 with
  | None => Raise KeyError
  | Some ext =>
      if String.eqb (ext_meta_name ext) "KHR_technique_webgl" then Ok []
      else
        let row :=
          Ui_row false
            ([Ui_prop (Owner_extension_prop i) "enable" (Some prop.1)
                "NONE" false true]
             ++ (if ext_meta_isDraft ui ext
                 then [Ui_prop Owner_self "draft_prop" None "ERROR" false false]
                 else [])
             ++ [Ui_operator "wm.url_open" "INFO" false (ext_meta_url ui ext)]) in
        Ok (row ::
            if prop.2 then
              match extension_settings (properties self) !! prop.1 with
              | Some settings =>
                  settings_box ui ext prop.1 settings
                  :: (if bool_decide
                           (i < length (extension_props (properties self)) - 1)
                      then [Ui_separator; Ui_separator] else [])
              | None => []
              end
            else [])
  end.

(** The loop, from index [i] on: what it has added to the column when it
    ends or raises. *)
Fixpoint extension_loop (ui : Ui) (self : ExportGLTF) (i : nat)
    (props : list (string * bool)) : list item * option draw_exn :=
  match props with
  | [] => ([], None)
  | prop :: props' =>
      match extension_items ui self i prop with
      | Raise e => ([], Some (Exn e))
      | Ok items =>
          let '(rest, e) := extension_loop ui self (S i) props' in
          (items ++ rest, e)
      end
  end.

Definition extensions_box (ui : Ui) (self : ExportGLTF) : item * option draw_exn :=
  let '(items, e) :=
    extension_loop ui self 0 (extension_props (properties self)) in
  (Ui_box [Ui_column false true (Ui_label "Extensions:" "PLUGIN" :: items)], e).

Definition output_box (self : ExportGLTF) : item :=
  Ui_box
    [Ui_column false true
       ([ Ui_label "Output:" "SCRIPTWIN";
          self_prop "gltf_export_binary"; self_prop "asset_version" ]
        ++ (if version_lt_2_0 (asset_version (properties self))
            then [self_prop "asset_profile"] else [])
        ++ [self_prop "pretty_print"; self_prop "blocks_prune_unused"])].

(** The method: the boxes added to [self.layout], and how it ends. *)
Definition draw (ui : Ui) (self : ExportGLTF) : list item * draw_end :=
  match update_extensions self with
  | Raise e => ([], Draw_raises (Exn e))
  | Ok (self, _) =>
      let first := [enable_box; axis_box; nodes_box; meshes_box] in
      match materials_box self with
      | (materials, Some e) => (first ++ [materials], Draw_raises e)
      | (materials, None) =>
          let middle :=
            [materials; animations_box; images_box self; buffers_box self] in
          match extensions_box ui self with
          | (extensions, Some e) =>
              (first ++ middle ++ [extensions], Draw_raises e)
          | (extensions, None) =>
              (first ++ middle ++ [extensions; output_box self], Drawn self)
          end
      end
  end.

(** The name a row of the extensions' column shows, if the item is such a
    row. *)
Definition row_name (it : item) : option string :=
  match it with
  | Ui_row _ (Ui_prop (Owner_extension_prop _) _ (Some name) _ _ _ :: _) =>
      Some name
  | _ => None
  end.

(** ** The class attribute [ext_exporters]

    [sorted([exporter() for exporter in extension_exporters.__all__],
    key=lambda ext: ext.ext_meta['name'])]: the instances in the order of
    their names.  [sorted] is stable: instances of the same name keep the
    order they had.  The list of the instances is taken as given. *)
Fixpoint insert_by_name (ext : Exporter) (exts : list Exporter) : list Exporter :=
  match exts with
  | [] => [ext]
  | ext' :: exts' =>
      if bool_decide (String.le (ext_meta_name ext) (ext_meta_name ext'))
      then ext :: exts
      else ext' :: insert_by_name ext exts'
  end.

Definition sorted_by_name (instances : list Exporter) : list Exporter :=
  foldr insert_by_name [] instances.

(** ** Operators with extensions, to run [update_extensions] on *)

Module SampleExt.

Definition blend : Exporter :=
  {| ext_meta_name := "BLENDER_physics"; ext_settings := None |}.
Definition common : Exporter :=
  {| ext_meta_name := "KHR_materials_common"; ext_settings := None |}.
Definition technique : Exporter :=
  {| ext_meta_name := "KHR_technique_webgl"; ext_settings := None |}.

(** An operator with three exporters, the properties [props] and a
    settings group for the technique extension. *)
Definition operator (version : asset_version_item) (disable : bool)
    (props : list (string * bool)) : ExportGLTF :=
  {| properties :=
       {| filepath := "/tmp/scene.gltf";
          check_existing := true;
          extension_props := props;
          extension_settings :=
            {[ "KHR_technique_webgl" := PyDict {[ "embed_shaders" := PyBool false ]} ]};
          draft_prop := false;
          nodes_export_hidden := false;
          nodes_selected_only := false;
          materials_disable := disable;
          meshes_apply_modifiers := true;
          meshes_interleave_vertex_data := false;
          animations_object_export := ACTIVE;
          animations_armature_export := ELIGIBLE;
          images_data_storage := COPY;
          images_allow_srgb := false;
          buffers_embed_data := false;
          buffers_combine_data := true;
          asset_version := version;
          asset_profile := WEB;
          gltf_export_binary := false;
          pretty_print := true;
          blocks_prune_unused := true;
          enable_actions := true;
          enable_cameras := true;
          enable_lamps := true;
          enable_materials := true;
          enable_meshes := true;
          enable_textures := true |};
     axis_forward := AxisZ;
     axis_up := AxisY;
     filename_ext := "";
     ext_exporters := [blend; common; technique];
     ext_prop_to_exporter_map := ∅ |}.

(** An operator that asks for everything: every category enabled, hidden
    objects exported, no restriction to the selection, no pruning. *)
Definition unfiltered : ExportGLTF :=
  {| properties :=
       {| filepath := "/tmp/scene.gltf";
          check_existing := true;
          extension_props := [];
          extension_settings := ∅;
          draft_prop := false;
          nodes_export_hidden := true;
          nodes_selected_only := false;
          materials_disable := false;
          meshes_apply_modifiers := true;
          meshes_interleave_vertex_data := false;
          animations_object_export := ACTIVE;
          animations_armature_export := ELIGIBLE;
          images_data_storage := COPY;
          images_allow_srgb := false;
          buffers_embed_data := false;
          buffers_combine_data := true;
          asset_version := V2_0;
          asset_profile := WEB;
          gltf_export_binary := false;
          pretty_print := true;
          blocks_prune_unused := false;
          enable_actions := true;
          enable_cameras := true;
          enable_lamps := true;
          enable_materials := true;
          enable_meshes := true;
          enable_textures := true |};
     axis_forward := AxisZ;
     axis_up := AxisY;
     filename_ext := "";
     ext_exporters := [blend; common; technique];
     ext_prop_to_exporter_map := ∅ |}.

(** What [draw] reads of the exporters: the physics extension is a draft,
    none has a [draw_settings] of its own, and [dir] lists the keys of a
    settings group besides the names every property group has. *)
Definition ui : Ui :=
  {| ext_meta_isDraft := λ ext, String.eqb (ext_meta_name ext) "BLENDER_physics";
     ext_meta_url := λ ext, PyStr "https://github.com/KhronosGroup/glTF";
     draw_settings := λ ext, None;
     dir := λ settings,
       ["__doc__"; "bl_rna"]
       ++ match settings with
          | PyDict d => (map_to_list d).*1
          | _ => []
          end
       ++ ["name"; "rna_type"] |}.

(** The operator after [update_extensions], or as it was when the method
    raises. *)
Definition updated (self : ExportGLTF) : ExportGLTF :=
  match update_extensions self with
  | Ok (self', _) => self'
  | Raise _ => self
  end.

End SampleExt.

(** * Properties *)

(** ** Strings *)

Lemma str_app_cons (c : ascii) (a b : string) :
  String c a +:+ b = String c (a +:+ b).
Proof. reflexivity. Qed.

Lemma str_app_nil (b : string) : "" +:+ b = b.
Proof. reflexivity. Qed.

Lemma str_length_app (a b : string) :
  String.length (a +:+ b) = String.length a + String.length b.
Proof.
  induction a as [|c a IH]; [done|].
  rewrite str_app_cons. simpl. by rewrite IH.
Qed.

Lemma str_drop_app (a b : string) : str_drop (String.length a) (a +:+ b) = b.
Proof.
  induction a as [|c a IH]; [rewrite str_app_nil; by destruct b|].
  by rewrite str_app_cons.
Qed.

Lemma str_take_app (a b : string) : str_take (String.length a) (a +:+ b) = a.
Proof.
  induction a as [|c a IH]; [rewrite str_app_nil; by destruct b|].
  rewrite str_app_cons. simpl. by rewrite IH.
Qed.

Lemma str_take_drop (n : nat) (s : string) : str_take n s +:+ str_drop n s = s.
Proof.
  revert s. induction n as [|n IH]; intros [|c s]; simpl; try done.
  by rewrite str_app_cons, IH.
Qed.

Lemma str_app_assoc (a b c : string) : (a +:+ b) +:+ c = a +:+ (b +:+ c).
Proof.
  induction a as [|x a IH]; [done|].
  by rewrite !str_app_cons, IH.
Qed.

(** [endswith] holds exactly of the strings that are some stem followed by
    the suffix. *)
Lemma endswith_spec (s suffix : string) :
  endswith s suffix = true ↔ ∃ stem, s = stem +:+ suffix.
Proof.
  unfold endswith. rewrite andb_true_iff, bool_decide_eq_true, String.eqb_eq.
  split.
  - intros [_ Hdrop].
    exists (str_take (String.length s - String.length suffix) s).
    symmetry.
    etrans; [|apply (str_take_drop (String.length s - String.length suffix))].
    by rewrite Hdrop.
  - intros [stem ->]. rewrite str_length_app. split; [lia|].
    replace (String.length stem + String.length suffix - String.length suffix)
      with (String.length stem) by lia.
    apply str_drop_app.
Qed.

Lemma endswith_app (stem suffix : string) : endswith (stem +:+ suffix) suffix = true.
Proof. apply endswith_spec. by exists stem. Qed.

(** Cutting the last [k] characters off a stem followed by [k] characters
    leaves the stem. *)
Lemma slice_until_neg_app (stem tail : string) :
  slice_until_neg (String.length tail) (stem +:+ tail) = stem.
Proof.
  unfold slice_until_neg. rewrite str_length_app.
  replace (String.length stem + String.length tail - String.length tail)
    with (String.length stem) by lia.
  apply str_take_app.
Qed.

(** The two rewrites, on a path split at its extension. *)
Lemma rewrite_gltf_to_glb (stem : string) :
  slice_until_neg 4 (stem +:+ ".gltf") +:+ "glb" = stem +:+ ".glb".
Proof.
  change (stem +:+ ".gltf") with (stem +:+ ("." +:+ "gltf")).
  rewrite <- str_app_assoc.
  pose proof (slice_until_neg_app (stem +:+ ".") "gltf") as Hcut.
  simpl in Hcut. rewrite Hcut.
  by rewrite str_app_assoc.
Qed.

Lemma rewrite_glb_to_gltf (stem : string) :
  slice_until_neg 3 (stem +:+ ".glb") +:+ "gltf" = stem +:+ ".gltf".
Proof.
  change (stem +:+ ".glb") with (stem +:+ ("." +:+ "glb")).
  rewrite <- str_app_assoc.
  pose proof (slice_until_neg_app (stem +:+ ".") "glb") as Hcut.
  simpl in Hcut. rewrite Hcut.
  by rewrite str_app_assoc.
Qed.

Lemma str_app_length_neq (stem a b : string) :
  String.length a ≠ String.length b → stem +:+ a ≠ stem +:+ b.
Proof. intros Hlen Heq. apply Hlen. by apply (inj (String.app stem)) in Heq as ->. Qed.

(** ** [check] *)

Lemma check_buffers_filepath (self : ExportGLTF) (redraw : bool) :
  filepath (properties (check_buffers self redraw).1) = filepath (properties self)
  ∧ gltf_export_binary (properties (check_buffers self redraw).1)
    = gltf_export_binary (properties self).
Proof. unfold check_buffers. by case_match. Qed.

Lemma check_buffers_redraw (self : ExportGLTF) :
  (check_buffers self true).2 = true.
Proof. unfold check_buffers. by case_match. Qed.

(** When [redraw] is set by one of the operator's own steps, [check] ends
    without calling the inherited [check]. *)
Lemma check_after_redraw (host : Host) (self self1 self2 : ExportGLTF) (r1 : bool) :
  check_extension self false = (self1, r1) →
  check_buffers self1 r1 = (self2, true) →
  check host self
  = (set_filename_ext
       (if gltf_export_binary (properties self2) then ".glb" else ".gltf")
       self2, true).
Proof. intros H1 H2. unfold check. by rewrite H1, H2. Qed.

(** C2: toggling the binary-mode flag rewrites the extension of the chosen
    path instead of appending a second one: [check] turns a path
    [stem.gltf] into [stem.glb] when binary mode is on, and a path
    [stem.glb] into [stem.gltf] when it is off; the expected extension
    follows, and the mode flag is left as it was. *)
Theorem check_rewrites_extension (host : Host) (self : ExportGLTF) (stem : string) :
  let binary := gltf_export_binary (properties self) in
  filepath (properties self) = stem +:+ (if binary then ".gltf" else ".glb") →
  filepath (properties (check host self).1)
  = stem +:+ (if binary then ".glb" else ".gltf")
  ∧ filename_ext (check host self).1 = (if binary then ".glb" else ".gltf")
  ∧ gltf_export_binary (properties (check host self).1) = binary.
Proof.
  intros binary Hpath. subst binary.
  destruct (check_extension self false) as [self1 r1] eqn:Hext.
  set (binary := gltf_export_binary (properties self)) in *.
  assert (r1 = true
          ∧ filepath (properties self1)
            = stem +:+ (if binary then ".glb" else ".gltf")
          ∧ gltf_export_binary (properties self1) = binary) as (-> & Hp1 & Hb1).
  { revert Hext. unfold check_extension. fold binary. rewrite Hpath.
    destruct binary eqn:Hbin; simpl.
    - rewrite endswith_app. intros [= <- <-]; simpl.
      by rewrite rewrite_gltf_to_glb.
    - rewrite endswith_app. intros [= <- <-]; simpl.
      by rewrite rewrite_glb_to_gltf. }
  destruct (check_buffers self1 true) as [self2 r2] eqn:Hbuf.
  pose proof (check_buffers_redraw self1) as Hr2.
  pose proof (check_buffers_filepath self1 true) as [Hp2 Hb2].
  rewrite Hbuf in Hr2, Hp2, Hb2; simpl in Hr2, Hp2, Hb2. subst r2.
  rewrite (check_after_redraw host self self1 self2 true Hext Hbuf); simpl.
  rewrite Hp2, Hb2, Hp1, Hb1. done.
Qed.

Lemma check_rewrites_extension_witness :
  filepath
    (properties
       (check Sample.host
          (Sample.operator
             (Sample.keywords_of "/tmp/scene.gltf" true false true true true true)
             AxisZ AxisY)).1)
  = "/tmp/scene.glb".
Proof.
  apply (check_rewrites_extension Sample.host
           (Sample.operator
              (Sample.keywords_of "/tmp/scene.gltf" true false true true true true)
              AxisZ AxisY) "/tmp/scene").
  reflexivity.
Defined.

(** C10: the extension-rewrite step changes the path only when binary mode
    is on and the path ends in [.gltf], or binary mode is off and the path
    ends in [.glb] (and then it does change it); on every other path the
    step changes nothing at all. *)
Theorem check_extension_changes_only_matching (self : ExportGLTF) (redraw : bool) :
  let p := properties self in
  (filepath (properties (check_extension self redraw).1) ≠ filepath p
   ↔ (gltf_export_binary p = true ∧ ∃ stem, filepath p = stem +:+ ".gltf")
     ∨ (gltf_export_binary p = false ∧ ∃ stem, filepath p = stem +:+ ".glb"))
  ∧ (check_extension self redraw = (self, redraw)
     ∨ filepath (properties (check_extension self redraw).1) ≠ filepath p).
Proof.
  intros p. unfold check_extension. fold p.
  destruct (gltf_export_binary p) eqn:Hbin; simpl.
  - destruct (endswith (filepath p) ".gltf") eqn:Hends; simpl.
    + apply endswith_spec in Hends as [stem Hstem].
      assert (slice_until_neg 4 (filepath p) +:+ "glb" ≠ filepath p) as Hne.
      { rewrite Hstem, rewrite_gltf_to_glb. by apply str_app_length_neq. }
      split; [|by right]. split; [|done]. intros _. left. eauto.
    + split; [|by left]. split; [done|].
      intros [[_ Hstem]|[? _]]; [|done].
      apply endswith_spec in Hstem. congruence.
  - destruct (endswith (filepath p) ".glb") eqn:Hends; simpl.
    + apply endswith_spec in Hends as [stem Hstem].
      assert (slice_until_neg 3 (filepath p) +:+ "gltf" ≠ filepath p) as Hne.
      { rewrite Hstem, rewrite_glb_to_gltf. by apply str_app_length_neq. }
      split; [|by right]. split; [|done]. intros _. right. eauto.
    + split; [|by left]. split; [done|].
      intros [[? _]|[_ Hstem]]; [done|].
      apply endswith_spec in Hstem. congruence.
Qed.



(** ** The engine's input *)

Lemma data_within_refl (d : Data) : data_within d d.
Proof. by repeat split. Qed.

Lemma data_within_trans (d1 d2 d3 : Data) :
  data_within d1 d2 → data_within d2 d3 → data_within d1 d3.
Proof.
  intros (?&?&?&?&?&?&?&?&?) (?&?&?&?&?&?&?&?&?).
  repeat split; by etrans.
Qed.

Lemma list_subseteq_nil_eq {A : Type} (l : list A) : l ⊆ [] → l = [].
Proof.
  destruct l as [|x l]; [done|]. intros Hsub.
  specialize (Hsub x (list_elem_of_here x l)). by apply elem_of_nil in Hsub.
Qed.

(** Selecting from clean data leaves clean data. *)
Lemma disabled_absent_within (p : Keywords) (d' d : Data) :
  data_within d' d → disabled_absent p d → disabled_absent p d'.
Proof.
  intros (_&Hcam&Hlamp&_&_&Hmesh&Hobj&_&_) (Hc&Hl&Hm).
  split; [|split].
  - intros Hoff. destruct (Hc Hoff) as [Hnil Hno]. split.
    + apply list_subseteq_nil_eq. by rewrite <- Hnil.
    + intros obj Hin. apply Hno, Hobj, Hin.
  - intros Hoff. destruct (Hl Hoff) as [Hnil Hno]. split.
    + apply list_subseteq_nil_eq. by rewrite <- Hnil.
    + intros obj Hin. apply Hno, Hobj, Hin.
  - intros Hoff. destruct (Hm Hoff) as [Hnil Hno]. split.
    + apply list_subseteq_nil_eq. by rewrite <- Hnil.
    + intros obj Hin. apply Hno, Hobj, Hin.
Qed.

Lemma elem_of_filter_negb {A : Type} (f : A → bool) (l : list A) (x : A) :
  x ∈ List.filter (λ y, negb (f y)) l ↔ x ∈ l ∧ f x = false.
Proof.
  rewrite !list_elem_of_In, filter_In, negb_true_iff. done.
Qed.

(** The three removals commute with one another in effect: an object
    survives them when it belongs to no disabled category. *)
Lemma elem_of_remove_disabled_objects (self : ExportGLTF) (data : Data) (obj : Object) :
  let p := properties self in
  obj ∈ objects (remove_disabled_objects self data)
  ↔ obj ∈ objects data
    ∧ (enable_cameras p = false → isinstance_Camera (ob_data obj) = false)
    ∧ (enable_lamps p = false → isinstance_Lamp (ob_data obj) = false)
    ∧ (enable_meshes p = false → isinstance_Mesh (ob_data obj) = false).
Proof.
  intros p. unfold remove_disabled_objects. fold p.
  destruct (enable_cameras p), (enable_lamps p), (enable_meshes p); simpl;
    rewrite ?elem_of_filter_negb; intuition congruence.
Qed.

Lemma remove_disabled_objects_lists (self : ExportGLTF) (data : Data) :
  cameras (remove_disabled_objects self data) = cameras data
  ∧ lamps (remove_disabled_objects self data) = lamps data
  ∧ meshes (remove_disabled_objects self data) = meshes data.
Proof. unfold remove_disabled_objects. by repeat case_match. Qed.

Lemma disabled_absent_unfiltered (self : ExportGLTF) (bpy : Data) :
  disabled_absent (properties self)
    (remove_disabled_objects self (collect_data self bpy)).
Proof.
  destruct (remove_disabled_objects_lists self (collect_data self bpy))
    as (Hc & Hl & Hm).
  split; [|split]; intros Hoff; (split; [|intros obj Hin;
    apply elem_of_remove_disabled_objects in Hin; intuition auto]).
  - rewrite Hc. simpl. by rewrite Hoff.
  - rewrite Hl. simpl. by rewrite Hoff.
  - rewrite Hm. simpl. by rewrite Hoff.
Qed.

(** C9: when a category is disabled, nothing of it reaches the engine: with
    [enable_cameras] off, the [data] handed to [export_gltf] has an empty
    list of cameras and no object whose [data] is a [Camera], and likewise
    for lamps and meshes; the three filters that run in between are taken
    to select from their argument. *)
Theorem disabled_categories_do_not_reach_engine (host : Host)
    (self : ExportGLTF) (bpy : Data) :
  selects (visible_only host) →
  selects (selected_only host) →
  selects (used_only host) →
  disabled_absent (properties self) (engine_data host self bpy).
Proof.
  intros Hvisible Hselected Hused. unfold engine_data.
  set (d0 := remove_disabled_objects self (collect_data self bpy)).
  set (d1 := if negb (nodes_export_hidden (properties self))
             then visible_only host d0 else d0).
  set (d2 := if nodes_selected_only (properties self)
             then selected_only host d1 else d1).
  assert (data_within d1 d0) as H10.
  { subst d1. case_match; [apply Hvisible|apply data_within_refl]. }
  assert (data_within d2 d1) as H21.
  { subst d2. case_match; [apply Hselected|apply data_within_refl]. }
  assert (disabled_absent (properties self) d2) as Hd2.
  { apply (disabled_absent_within _ d2 d0);
      [by apply (data_within_trans d2 d1 d0)|].
    apply disabled_absent_unfiltered. }
  case_match; [|done].
  by apply (disabled_absent_within _ _ d2); [apply Hused|].
Qed.

Lemma disabled_categories_do_not_reach_engine_witness :
  disabled_absent
    (Sample.keywords_of "/tmp/scene.gltf" false false true false false false)
    (engine_data Sample.host
       (Sample.operator
          (Sample.keywords_of "/tmp/scene.gltf" false false true false false false)
          AxisZ AxisY)
       Sample.bpy).
Proof.
  apply (disabled_categories_do_not_reach_engine Sample.host
           (Sample.operator
              (Sample.keywords_of "/tmp/scene.gltf" false false true false false false)
              AxisZ AxisY)
           Sample.bpy).
  - intros d. apply data_within_refl.
  - intros d. apply data_within_refl.
  - intros d. apply data_within_refl.
Defined.

(** On the sample scene, with the three categories disabled, only the empty
    is left of the four objects. *)
Example engine_data_sample :
  objects
    (engine_data Sample.host
       (Sample.operator
          (Sample.keywords_of "/tmp/scene.gltf" false false true false false false)
          AxisZ AxisY)
       Sample.bpy)
  = [ {| ob_name := "Empty"; ob_data := None |} ].
Proof. reflexivity. Qed.

(** ** Loops over the values of a dictionary *)

Lemma for_each_cons {A S : Type} (body : A → S → result S) (x : A) (xs : list A) (s : S) :
  for_each body (x :: xs) s
  = match body x s with
    | Ok s' => for_each body xs s'
    | Raise e => Raise e
    end.
Proof. reflexivity. Qed.

Section for_values.
Context {A : Type} (body : A → result A).

Lemma update_value_Ok (k : string) (a a' : A) (d : gmap string A) :
  body a = Ok a' → update_value body (k, a) d = Ok (<[k := a']> d).
Proof. intros Hbody. unfold update_value; simpl. by rewrite Hbody. Qed.

Lemma update_value_Raise (k : string) (a : A) (e : exn) (d : gmap string A) :
  body a = Raise e → update_value body (k, a) d = Raise e.
Proof. intros Hbody. unfold update_value; simpl. by rewrite Hbody. Qed.

(** The loop over a list of items with distinct keys: when it ends, each
    item's key holds what the body made of its value and every other key
    is as before; when it raises, the body raised on one of the items. *)
Lemma for_each_items (l : list (string * A)) (acc : gmap string A) :
  NoDup l.*1 →
  match for_each (update_value body) l acc with
  | Ok acc' =>
      (∀ k a, (k, a) ∈ l → ∃ a', body a = Ok a' ∧ acc' !! k = Some a')
      ∧ (∀ k, k ∉ l.*1 → acc' !! k = acc !! k)
  | Raise e => ∃ k a, (k, a) ∈ l ∧ body a = Raise e
  end.
Proof.
  revert acc. induction l as [|[k0 a0] l IH]; intros acc Hnodup.
  - split; [|done]. intros k a Hin. by apply elem_of_nil in Hin.
  - rewrite fmap_cons in Hnodup. apply NoDup_cons in Hnodup as [Hfresh Hnodup].
    rewrite for_each_cons. destruct (body a0) as [a0'|e] eqn:Hbody.
    + rewrite (update_value_Ok _ _ _ _ Hbody).
      specialize (IH (<[k0 := a0']> acc) Hnodup).
      destruct (for_each (update_value body) l (<[k0 := a0']> acc)) as [acc'|e].
      * destruct IH as [Hin Hout]. split.
        -- intros k a [[= -> ->]|Hl]%elem_of_cons; [|by apply Hin].
           exists a0'. split; [done|].
           rewrite Hout by done. apply lookup_insert_eq.
        -- intros k Hk. rewrite fmap_cons in Hk.
           apply not_elem_of_cons in Hk as [Hne Hk].
           rewrite Hout by done. by apply lookup_insert_ne.
      * destruct IH as (k & a & Hin & Hraise).
        exists k, a. split; [by apply elem_of_cons; right|done].
    + rewrite (update_value_Raise _ _ _ _ Hbody).
      exists k0, a0. split; [apply list_elem_of_here|done].
Qed.

(** [for_values] returns exactly when the body returns on every value,
    and then maps it over the dictionary. *)
Lemma for_values_Ok (d d' : gmap string A) :
  for_values body d = Ok d' →
  ∀ k, match d !! k with
       | Some a => ∃ a', body a = Ok a' ∧ d' !! k = Some a'
       | None => d' !! k = None
       end.
Proof.
  intros Hrun k. unfold for_values in Hrun.
  pose proof (for_each_items (map_to_list d) d (NoDup_fst_map_to_list d)) as H.
  rewrite Hrun in H. destruct H as [Hin Hout].
  destruct (d !! k) as [a|] eqn:Hk.
  - by apply Hin, elem_of_map_to_list.
  - rewrite Hout; [done|].
    intros ((k' & a) & -> & Hin')%list_elem_of_fmap.
    apply elem_of_map_to_list in Hin'. simpl in Hk. congruence.
Qed.

Lemma for_values_Raise (d : gmap string A) (e : exn) :
  for_values body d = Raise e → ∃ k a, d !! k = Some a ∧ body a = Raise e.
Proof.
  intros Hrun. unfold for_values in Hrun.
  pose proof (for_each_items (map_to_list d) d (NoDup_fst_map_to_list d)) as H.
  rewrite Hrun in H. destruct H as (k & a & Hin & Hraise).
  exists k, a. split; [by apply elem_of_map_to_list|done].
Qed.

Lemma for_values_returns (d : gmap string A) :
  (∀ k a, d !! k = Some a → ∃ a', body a = Ok a') →
  ∃ d', for_values body d = Ok d'.
Proof.
  intros Hall. destruct (for_values body d) as [d'|e] eqn:Hrun; [by exists d'|].
  apply for_values_Raise in Hrun as (k & a & Hk & Hraise).
  destruct (Hall k a Hk) as [a' Ha']. congruence.
Qed.
End for_values.

(** ** The wrapper root nodes *)

Lemma root_node_id_of_inj (scene_id1 scene_id2 : string) :
  root_node_id_of scene_id1 = root_node_id_of scene_id2 → scene_id1 = scene_id2.
Proof.
  unfold root_node_id_of. intros Heq.
  assert (String.length scene_id1 = String.length scene_id2) as Hlen.
  { apply (f_equal String.length) in Heq. rewrite !str_length_app in Heq. lia. }
  rewrite <- (str_take_app scene_id1 "_root"), <- (str_take_app scene_id2 "_root").
  by rewrite Heq, Hlen.
Qed.

(** The loop over the scenes, on any list of items with distinct
    identifiers: every scene of the list gets its wrapper and points to it
    alone, every other scene and every node whose identifier is not a
    wrapper's stay as they were, and so does the rest of the document. *)
Lemma foldl_add_root_node (matrix : pyval) (l : list (string * Scene)) (gltf : Gltf) :
  NoDup l.*1 →
  let gltf' := foldl (add_root_node matrix) gltf l in
  (∀ scene_id scene, (scene_id, scene) ∈ l →
     gltf_scenes gltf' !! scene_id
     = Some {| scene_nodes := PyList [PyStr (root_node_id_of scene_id)];
               scene_rest := scene_rest scene |}
     ∧ gltf_nodes gltf' !! root_node_id_of scene_id
       = Some (root_node_of matrix scene))
  ∧ (∀ scene_id, scene_id ∉ l.*1 →
       gltf_scenes gltf' !! scene_id = gltf_scenes gltf !! scene_id)
  ∧ (∀ node_id, (∀ scene_id, scene_id ∈ l.*1 → node_id ≠ root_node_id_of scene_id) →
       gltf_nodes gltf' !! node_id = gltf_nodes gltf !! node_id)
  ∧ gltf_scene gltf' = gltf_scene gltf
  ∧ gltf_techniques gltf' = gltf_techniques gltf
  ∧ gltf_rest gltf' = gltf_rest gltf.
Proof.
  revert gltf. induction l as [|[sid0 scene0] l IH]; intros gltf Hnodup gltf'.
  - subst gltf'; simpl. split; [|done].
    intros scene_id scene Hin. by apply elem_of_nil in Hin.
  - rewrite fmap_cons in Hnodup. apply NoDup_cons in Hnodup as [Hfresh Hnodup].
    simpl in Hfresh.
    destruct (IH (add_root_node matrix gltf (sid0, scene0)) Hnodup)
      as (Hin & Hscenes & Hnodes & Hscene & Htech & Hrest).
    subst gltf'. cbn [foldl].
    split; [|split; [|split]].
    + intros scene_id scene [[= -> ->]|Hl]%elem_of_cons; [|by apply Hin].
      rewrite Hscenes by done. rewrite Hnodes.
      * simpl. by rewrite !lookup_insert_eq.
      * intros scene_id Hl Heq. apply root_node_id_of_inj in Heq. by subst.
    + intros scene_id Hout. rewrite fmap_cons in Hout.
      apply not_elem_of_cons in Hout as [Hne Hout].
      rewrite Hscenes by done. simpl. by apply lookup_insert_ne.
    + intros node_id Hout. rewrite Hnodes.
      * simpl. apply lookup_insert_ne. intros Heq.
        apply (Hout sid0); [rewrite fmap_cons; apply list_elem_of_here|done].
      * intros scene_id Hl. apply Hout. rewrite fmap_cons.
        by apply elem_of_cons; right.
    + by rewrite Hscene, Htech, Hrest.
Qed.

(** X2: the loop gives the same document whatever the order in which the
    dictionary hands out its items. *)
Lemma foldl_add_root_node_order (matrix : pyval) (l1 l2 : list (string * Scene))
    (gltf : Gltf) :
  NoDup l1.*1 → l1 ≡ₚ l2 →
  foldl (add_root_node matrix) gltf l1 = foldl (add_root_node matrix) gltf l2.
Proof.
  intros Hnodup Hperm.
  assert (NoDup l2.*1) as Hnodup2 by by rewrite <- Hperm.
  destruct (foldl_add_root_node matrix l1 gltf Hnodup)
    as (Hin1 & Hs1 & Hn1 & Hd1 & Ht1 & Hr1).
  destruct (foldl_add_root_node matrix l2 gltf Hnodup2)
    as (Hin2 & Hs2 & Hn2 & Hd2 & Ht2 & Hr2).
  destruct (foldl (add_root_node matrix) gltf l1) as [s1 n1 d1 t1 r1].
  destruct (foldl (add_root_node matrix) gltf l2) as [s2 n2 d2 t2 r2].
  simpl in *. f_equal; try congruence.
  - apply map_eq. intros scene_id.
    destruct (decide (scene_id ∈ l1.*1)) as [Hl|Hl].
    + apply list_elem_of_fmap in Hl as ([sid scene] & -> & Hl); simpl.
      rewrite (proj1 (Hin1 sid scene Hl)).
      rewrite Hperm in Hl. by rewrite (proj1 (Hin2 sid scene Hl)).
    + rewrite Hs1 by done. rewrite Hperm in Hl. by rewrite Hs2.
  - apply map_eq. intros node_id.
    destruct (decide (node_id ∈ root_node_id_of <$> l1.*1)) as [Hl|Hl].
    + apply list_elem_of_fmap in Hl as (sid0 & -> & Hl).
      apply list_elem_of_fmap in Hl as ([sid scene] & -> & Hl); simpl.
      rewrite (proj2 (Hin1 sid scene Hl)).
      rewrite Hperm in Hl. by rewrite (proj2 (Hin2 sid scene Hl)).
    + rewrite Hn1, Hn2; [done| |].
      * intros scene_id Hin ->. apply Hl.
        apply list_elem_of_fmap_2. by rewrite Hperm.
      * intros scene_id Hin ->. apply Hl. by apply list_elem_of_fmap_2.
Qed.

Lemma foldl_add_root_node_order_witness :
  foldl (add_root_node PyNone) (Sample.document_of Sample.bpy)
    [ ("Scene", {| scene_nodes := PyList [PyStr "Cube"]; scene_rest := ∅ |});
      ("Backdrop", {| scene_nodes := PyList []; scene_rest := ∅ |}) ]
  = foldl (add_root_node PyNone) (Sample.document_of Sample.bpy)
      [ ("Backdrop", {| scene_nodes := PyList []; scene_rest := ∅ |});
        ("Scene", {| scene_nodes := PyList [PyStr "Cube"]; scene_rest := ∅ |}) ].
Proof.
  apply (foldl_add_root_node_order PyNone
           [ ("Scene", {| scene_nodes := PyList [PyStr "Cube"]; scene_rest := ∅ |});
             ("Backdrop", {| scene_nodes := PyList []; scene_rest := ∅ |}) ]).
  - simpl. apply NoDup_cons.
    split; [by intros [=]%list_elem_of_singleton|apply NoDup_singleton].
  - apply perm_swap.
Defined.

(** ** The two monads *)

Lemma bind_Ok {A B : Type} (m : result A) (f : A → result B) (b : B) :
  m ≫= f = Ok b ↔ ∃ a, m = Ok a ∧ f a = Ok b.
Proof.
  destruct m as [a|e]; simpl.
  - split; [by exists a|]. by intros (a' & [= <-] & Hf).
  - split; [done|]. by intros (a' & [=] & _).
Qed.

Lemma io_bind_Ok {A B : Type} (m : io A) (f : A → io B) (a : A) :
  io_result m = Ok a →
  m ≫= f = IO (io_trace m ++ io_trace (f a)) (io_result (f a)).
Proof. intros Hm. unfold mbind, io_bind. by rewrite Hm. Qed.

Lemma io_bind_Raise {A B : Type} (m : io A) (f : A → io B) (e : exn) :
  io_result m = Raise e → m ≫= f = IO (io_trace m) (Raise e).
Proof. intros Hm. unfold mbind, io_bind. by rewrite Hm. Qed.

Lemma lift_Ok_bind {A B : Type} (a : A) (f : A → io B) : lift (Ok a) ≫= f = f a.
Proof. rewrite (io_bind_Ok _ _ a) by done. simpl. by destruct (f a). Qed.

Lemma lift_Raise_bind {A B : Type} (e : exn) (f : A → io B) :
  lift (Raise e) ≫= f = IO [] (Raise e).
Proof. by apply io_bind_Raise. Qed.

Lemma emit_bind {B : Type} (e : event) (f : unit → io B) :
  emit e ≫= f = IO (e :: io_trace (f tt)) (io_result (f tt)).
Proof. by rewrite (io_bind_Ok _ _ tt). Qed.

(** ** The first [if] as a whole *)

(** The document after the first [if], when the engine returned one. *)
Lemma add_root_nodes_Document (host : Host) (settings : Settings) (gltf : Gltf) :
  io_result (add_root_nodes host settings (Document gltf))
  = Ok (Document
          (if Matrix_ne host (nodes_global_matrix settings) Matrix_Identity_4
           then add_root_nodes_loop (matrix_tuple host (nodes_global_matrix settings))
                  gltf
           else gltf)).
Proof.
  unfold add_root_nodes. case_match; [|done].
  rewrite emit_bind. cbn beta iota delta [as_dict io_result].
  by rewrite lift_Ok_bind.
Qed.

Lemma add_root_nodes_prints (host : Host) (settings : Settings) (gltf : returned) :
  Forall (λ e, is_print e = true) (io_trace (add_root_nodes host settings gltf)).
Proof.
  unfold add_root_nodes. case_match; [|constructor].
  rewrite emit_bind.
  destruct gltf as [document|data]; cbn beta iota delta [as_dict io_trace].
  - rewrite lift_Ok_bind. by repeat constructor.
  - rewrite lift_Raise_bind. by repeat constructor.
Qed.

(** What the loop does, on the items of the dictionary. *)
Lemma add_root_nodes_loop_spec (matrix : pyval) (gltf : Gltf) :
  let gltf' := add_root_nodes_loop matrix gltf in
  (∀ scene_id scene, gltf_scenes gltf !! scene_id = Some scene →
     gltf_scenes gltf' !! scene_id
     = Some {| scene_nodes := PyList [PyStr (root_node_id_of scene_id)];
               scene_rest := scene_rest scene |}
     ∧ gltf_nodes gltf' !! root_node_id_of scene_id
       = Some (root_node_of matrix scene))
  ∧ (∀ scene_id, gltf_scenes gltf !! scene_id = None →
       gltf_scenes gltf' !! scene_id = None)
  ∧ (∀ node_id,
       (∀ scene_id, is_Some (gltf_scenes gltf !! scene_id) →
          node_id ≠ root_node_id_of scene_id) →
       gltf_nodes gltf' !! node_id = gltf_nodes gltf !! node_id)
  ∧ gltf_scene gltf' = gltf_scene gltf
  ∧ gltf_techniques gltf' = gltf_techniques gltf
  ∧ gltf_rest gltf' = gltf_rest gltf.
Proof.
  intros gltf'. subst gltf'. unfold add_root_nodes_loop.
  destruct (foldl_add_root_node matrix (map_to_list (gltf_scenes gltf)) gltf
              (NoDup_fst_map_to_list _))
    as (Hin & Hscenes & Hnodes & Hscene & Htech & Hrest).
  split; [|split; [|split]]; [| | |done].
  - intros scene_id scene Hlookup. by apply Hin, elem_of_map_to_list.
  - intros scene_id Hnone. rewrite Hscenes; [done|].
    intros ([k a] & -> & Hk)%list_elem_of_fmap.
    apply elem_of_map_to_list in Hk. simpl in Hnone. congruence.
  - intros node_id Hother. apply Hnodes.
    intros scene_id ([k a] & -> & Hk)%list_elem_of_fmap.
    apply elem_of_map_to_list in Hk. apply Hother. by exists a.
Qed.

(** ** The default scene *)

Lemma elem_of_keys {A : Type} (m : gmap string A) (k : string) :
  k ∈ (map_to_list m).*1 ↔ is_Some (m !! k).
Proof.
  rewrite list_elem_of_fmap. split.
  - intros ([k' a] & -> & Hin). apply elem_of_map_to_list in Hin. by exists a.
  - intros [a Ha]. exists (k, a). split; [done|]. by apply elem_of_map_to_list.
Qed.

(** The first element of a sorted list is one of the list and is below
    every element of it. *)
Lemma sorted_head_least (l : list string) (k : string) (rest : list string) :
  sorted l = k :: rest → k ∈ l ∧ ∀ k', k' ∈ l → String.le k k'.
Proof.
  intros Hsorted.
  pose proof (merge_sort_Permutation String.le l) as Hperm.
  pose proof (StronglySorted_merge_sort String.le l) as Hstrong.
  unfold sorted in Hsorted. rewrite Hsorted in Hperm, Hstrong.
  split.
  - rewrite <- Hperm. apply list_elem_of_here.
  - intros k' Hin. rewrite <- Hperm in Hin.
    apply elem_of_cons in Hin as [->|Hin]; [done|].
    apply StronglySorted_inv in Hstrong as [_ Hall].
    by apply (proj1 (Forall_forall _ _) Hall).
Qed.

Lemma sorted_nil (l : list string) : sorted l = [] → l = [].
Proof.
  intros Hsorted. pose proof (merge_sort_Permutation String.le l) as Hperm.
  unfold sorted in Hsorted. rewrite Hsorted in Hperm.
  by apply Permutation_nil_l in Hperm.
Qed.

(** On a document [set_default_scene] never raises: a dictionary that is not
    empty has a first key. *)
Lemma set_default_scene_spec (gltf : Gltf) :
  ∃ gltf', set_default_scene (Document gltf) = Ok gltf'
    ∧ gltf_scenes gltf' = gltf_scenes gltf
    ∧ gltf_nodes gltf' = gltf_nodes gltf
    ∧ gltf_techniques gltf' = gltf_techniques gltf
    ∧ gltf_rest gltf' = gltf_rest gltf
    ∧ (gltf_scenes gltf = ∅ → gltf_scene gltf' = gltf_scene gltf)
    ∧ (gltf_scenes gltf ≠ ∅ →
       ∃ scene_id,
         gltf_scene gltf' = Some (PyStr scene_id)
         ∧ head (sorted (map_to_list (gltf_scenes gltf)).*1) = Some scene_id
         ∧ is_Some (gltf_scenes gltf !! scene_id)
         ∧ ∀ k, is_Some (gltf_scenes gltf !! k) → String.le scene_id k).
Proof.
  unfold set_default_scene. cbn [as_dict mbind result_bind].
  destruct (bool_decide (gltf_scenes gltf = ∅)) eqn:Hempty; simpl.
  - apply bool_decide_eq_true in Hempty. exists gltf. by repeat split.
  - apply bool_decide_eq_false in Hempty.
    destruct (sorted (map_to_list (gltf_scenes gltf)).*1) as [|k rest] eqn:Hsorted.
    + apply sorted_nil, fmap_nil_inv, map_to_list_empty_iff in Hsorted. done.
    + eexists. split; [done|]. simpl. do 4 (split; [done|]). split; [done|].
      intros _. exists k. split; [done|]. split; [done|].
      destruct (sorted_head_least _ _ _ Hsorted) as [Hin Hleast].
      split; [by apply elem_of_keys|].
      intros k' Hk'. by apply Hleast, elem_of_keys.
Qed.

(** ** The default values *)

Lemma fill_default_value_Ok (parameter parameter' : TechParameter) :
  fill_default_value parameter = Ok parameter' →
  match param_value parameter with
  | Some PyNone =>
      ∃ type v, param_type parameter = Some type
        ∧ _DEFAULT_VALUES_BY_PARAM_TYPE !! type = Some v
        ∧ parameter' = set_param_value v parameter
  | _ => parameter' = parameter
  end.
Proof.
  unfold fill_default_value.
  destruct (param_value parameter) as [[]|]; try by intros [= <-].
  destruct (param_type parameter) as [type|]; [|done].
  destruct (_DEFAULT_VALUES_BY_PARAM_TYPE !! type) as [v|] eqn:Hv; [|done].
  intros [= <-]. by exists type, v.
Qed.

Lemma fill_default_value_Raise (parameter : TechParameter) (e : exn) :
  fill_default_value parameter = Raise e → e = KeyError.
Proof.
  unfold fill_default_value.
  destruct (param_value parameter) as [[]|]; try done.
  destruct (param_type parameter) as [type|]; [|by intros [= <-]].
  destruct (_DEFAULT_VALUES_BY_PARAM_TYPE !! type); [done|by intros [= <-]].
Qed.

(** A parameter is filled without an exception exactly when it is set, has
    no ['value'], or has a ['type'] that is a key of the table. *)
Lemma fill_default_value_returns (parameter : TechParameter) :
  (∃ parameter', fill_default_value parameter = Ok parameter')
  ↔ (param_value parameter = Some PyNone →
     ∃ type, param_type parameter = Some type
       ∧ is_Some (_DEFAULT_VALUES_BY_PARAM_TYPE !! type)).
Proof.
  unfold fill_default_value. split.
  - intros [parameter' Hfill] Hunset. rewrite Hunset in Hfill.
    destruct (param_type parameter) as [type|]; [|done].
    exists type. split; [done|].
    by destruct (_DEFAULT_VALUES_BY_PARAM_TYPE !! type).
  - intros Hdefault.
    destruct (param_value parameter) as [[]|]; try by eexists.
    destruct Hdefault as (type & -> & [v ->]); by eexists.
Qed.

Lemma fill_technique_Ok (technique technique' : Technique) :
  fill_technique technique = Ok technique' ↔
  ∃ parameters,
    for_values fill_default_value (technique_parameters technique) = Ok parameters
    ∧ technique' = {| technique_parameters := parameters;
                      technique_rest := technique_rest technique |}.
Proof.
  unfold fill_technique. rewrite bind_Ok.
  split; intros (parameters & Hloop & Heq); exists parameters; (split; [done|]);
    congruence.
Qed.

Lemma fill_default_values_Ok (gltf gltf' : Gltf) :
  fill_default_values gltf = Ok gltf' ↔
  ∃ techniques,
    for_values fill_technique (gltf_techniques gltf) = Ok techniques
    ∧ gltf' = {| gltf_scenes := gltf_scenes gltf;
                 gltf_nodes := gltf_nodes gltf;
                 gltf_scene := gltf_scene gltf;
                 gltf_techniques := techniques;
                 gltf_rest := gltf_rest gltf |}.
Proof.
  unfold fill_default_values. rewrite bind_Ok.
  split; intros (techniques & Hloop & Heq); exists techniques; (split; [done|]);
    congruence.
Qed.

Lemma fill_default_values_Raise (gltf : Gltf) (e : exn) :
  fill_default_values gltf = Raise e → e = KeyError.
Proof.
  unfold fill_default_values.
  destruct (for_values fill_technique (gltf_techniques gltf))
    as [techniques|e'] eqn:Hloop; [done|].
  intros [= <-].
  apply for_values_Raise in Hloop as (t & technique & _ & Hfill).
  unfold fill_technique in Hfill.
  destruct (for_values fill_default_value (technique_parameters technique))
    as [parameters|e''] eqn:Hparams; [done|].
  injection Hfill as <-.
  apply for_values_Raise in Hparams as (name & parameter & _ & Hraise).
  by apply fill_default_value_Raise in Hraise.
Qed.

(** What the loops make of a parameter. *)
Lemma for_values_fill_technique (techniques techniques' : gmap string Technique)
    (t : string) (technique : Technique) (name : string) (parameter : TechParameter) :
  for_values fill_technique techniques = Ok techniques' →
  techniques !! t = Some technique →
  technique_parameters technique !! name = Some parameter →
  ∃ technique' parameter',
    techniques' !! t = Some technique'
    ∧ technique_rest technique' = technique_rest technique
    ∧ technique_parameters technique' !! name = Some parameter'
    ∧ fill_default_value parameter = Ok parameter'.
Proof.
  intros Hloop Ht Hname.
  pose proof (for_values_Ok _ _ _ Hloop t) as Htech. rewrite Ht in Htech.
  destruct Htech as (technique' & Hfill & Ht').
  apply fill_technique_Ok in Hfill as (parameters & Hparams & ->).
  pose proof (for_values_Ok _ _ _ Hparams name) as Hparam.
  rewrite Hname in Hparam. destruct Hparam as (parameter' & Hfill & Hname').
  by exists {| technique_parameters := parameters;
               technique_rest := technique_rest technique |}, parameter'.
Qed.

(** ** [assemble] as a whole *)

(** When the engine returned [bytes], [assemble] raises [TypeError], at the
    first place that indexes [gltf]. *)
Lemma assemble_Bytes (host : Host) (settings : Settings) (data : string) :
  io_result (assemble host settings (Bytes data)) = Raise TypeError.
Proof.
  unfold assemble, add_root_nodes. case_match.
  - rewrite emit_bind. cbn beta iota delta [as_dict].
    rewrite lift_Raise_bind. by rewrite (io_bind_Raise _ _ TypeError).
  - change (mret (Bytes data)) with (@lift returned (Ok (Bytes data))).
    rewrite lift_Ok_bind.
    change (set_default_scene (Bytes data)) with (@Raise Gltf TypeError).
    by rewrite lift_Raise_bind.
Qed.

(** When it returned a document, [assemble] is the three steps in turn. *)
Lemma assemble_Document (host : Host) (settings : Settings) (gltf gltf' : Gltf) :
  io_result (assemble host settings (Document gltf)) = Ok gltf' ↔
  ∃ gltf2,
    set_default_scene
      (Document
         (if Matrix_ne host (nodes_global_matrix settings) Matrix_Identity_4
          then add_root_nodes_loop (matrix_tuple host (nodes_global_matrix settings))
                 gltf
          else gltf)) = Ok gltf2
    ∧ fill_default_values gltf2 = Ok gltf'.
Proof.
  unfold assemble.
  rewrite (io_bind_Ok _ _ _ (add_root_nodes_Document host settings gltf)).
  cbn [io_result].
  destruct (set_default_scene _) as [gltf2|e] eqn:Hscene.
  - rewrite lift_Ok_bind. cbn [lift io_result]. split.
    + intros Hfill. by exists gltf2.
    + by intros (gltf2' & [= <-] & Hfill).
  - rewrite lift_Raise_bind. cbn [io_result]. split; [done|].
    by intros (gltf2' & [=] & _).
Qed.

Lemma assemble_Ok_Document (host : Host) (settings : Settings) (gltf : returned)
    (gltf' : Gltf) :
  io_result (assemble host settings gltf) = Ok gltf' →
  ∃ document, gltf = Document document.
Proof.
  destruct gltf as [document|data]; [by exists document|].
  by rewrite assemble_Bytes.
Qed.

(** What the three steps leave alone. *)
Lemma assemble_frame (host : Host) (settings : Settings) (gltf gltf' : Gltf) :
  io_result (assemble host settings (Document gltf)) = Ok gltf' →
  let gltf1 :=
    if Matrix_ne host (nodes_global_matrix settings) Matrix_Identity_4
    then add_root_nodes_loop (matrix_tuple host (nodes_global_matrix settings)) gltf
    else gltf in
  gltf_scenes gltf' = gltf_scenes gltf1
  ∧ gltf_nodes gltf' = gltf_nodes gltf1
  ∧ gltf_rest gltf' = gltf_rest gltf
  ∧ gltf_scene gltf1 = gltf_scene gltf
  ∧ set_default_scene (Document gltf1)
    = Ok {| gltf_scenes := gltf_scenes gltf1;
            gltf_nodes := gltf_nodes gltf1;
            gltf_scene := gltf_scene gltf';
            gltf_techniques := gltf_techniques gltf;
            gltf_rest := gltf_rest gltf |}
  ∧ for_values fill_technique (gltf_techniques gltf) = Ok (gltf_techniques gltf').
Proof.
  intros (gltf2 & Hscene & Hfill)%assemble_Document gltf1. fold gltf1 in Hscene.
  assert (gltf_scene gltf1 = gltf_scene gltf
          ∧ gltf_techniques gltf1 = gltf_techniques gltf
          ∧ gltf_rest gltf1 = gltf_rest gltf) as (Hd1 & Ht1 & Hr1).
  { subst gltf1. case_match; [|done].
    by destruct (add_root_nodes_loop_spec
                   (matrix_tuple host (nodes_global_matrix settings)) gltf)
      as (_ & _ & _ & ? & ? & ?). }
  destruct (set_default_scene_spec gltf1)
    as (gltf2' & Hscene' & Hs2 & Hn2 & Ht2 & Hr2 & _).
  rewrite Hscene in Hscene'. injection Hscene' as <-.
  apply fill_default_values_Ok in Hfill as (techniques & Hloop & ->); simpl.
  rewrite Ht2, Ht1 in Hloop. rewrite Hs2, Hn2, Hr2, Hr1.
  do 4 (split; [done|]). split; [|done].
  rewrite Hscene. f_equal. destruct gltf2; simpl in *. congruence.
Qed.

(** [assemble] returns exactly when the loops over the techniques do. *)
Lemma assemble_returns (host : Host) (settings : Settings) (gltf : Gltf) :
  (∃ gltf', io_result (assemble host settings (Document gltf)) = Ok gltf')
  ↔ ∃ techniques, for_values fill_technique (gltf_techniques gltf) = Ok techniques.
Proof.
  split.
  - intros [gltf' Hrun]. exists (gltf_techniques gltf').
    by apply assemble_frame in Hrun as (_ & _ & _ & _ & _ & ?).
  - intros [techniques Hloop].
    destruct (set_default_scene_spec
                (if Matrix_ne host (nodes_global_matrix settings) Matrix_Identity_4
                 then add_root_nodes_loop
                        (matrix_tuple host (nodes_global_matrix settings)) gltf
                 else gltf))
      as (gltf2 & Hscene & _ & _ & Ht2 & _).
    assert (gltf_techniques gltf2 = gltf_techniques gltf) as Ht.
    { rewrite Ht2. case_match; [|done].
      by destruct (add_root_nodes_loop_spec
                     (matrix_tuple host (nodes_global_matrix settings)) gltf)
        as (_ & _ & _ & _ & ? & _). }
    eexists. apply assemble_Document. exists gltf2. split; [done|].
    apply fill_default_values_Ok. exists techniques. by rewrite Ht.
Qed.

(** [assemble] raises nothing but [KeyError], for a parameter without a
    default, and [TypeError], for [bytes]. *)
Lemma assemble_Raise (host : Host) (settings : Settings) (gltf : returned) (e : exn) :
  io_result (assemble host settings gltf) = Raise e →
  match gltf with Document _ => e = KeyError | Bytes _ => e = TypeError end.
Proof.
  destruct gltf as [document|data].
  2:{ rewrite assemble_Bytes. by intros [= <-]. }
  unfold assemble.
  rewrite (io_bind_Ok _ _ _ (add_root_nodes_Document host settings document)).
  cbn [io_result].
  destruct (set_default_scene_spec
              (if Matrix_ne host (nodes_global_matrix settings) Matrix_Identity_4
               then add_root_nodes_loop
                      (matrix_tuple host (nodes_global_matrix settings)) document
               else document)) as (gltf2 & Hscene & _).
  rewrite Hscene, lift_Ok_bind. apply fill_default_values_Raise.
Qed.

Lemma assemble_prints (host : Host) (settings : Settings) (gltf : returned) :
  Forall (λ e, is_print e = true) (io_trace (assemble host settings gltf)).
Proof.
  unfold assemble.
  pose proof (add_root_nodes_prints host settings gltf) as Hprints.
  destruct (add_root_nodes host settings gltf) as [prints [gltf1|e]];
    cbn [io_trace] in Hprints.
  - rewrite (io_bind_Ok _ _ gltf1) by done. cbn [io_trace].
    destruct (set_default_scene gltf1) as [gltf2|e].
    + rewrite lift_Ok_bind. cbn [lift io_trace]. by rewrite app_nil_r.
    + rewrite lift_Raise_bind. cbn [io_trace]. by rewrite app_nil_r.
  - by rewrite (io_bind_Raise _ _ e).
Qed.

(** C1: with a root transform that compares equal to the 4x4 identity, the
    completed document has the nodes and the scenes of the engine's
    document: no wrapper is added.  With any other root transform, every
    scene gets one wrapper node, under the scene's identifier followed by
    [_root]: it holds the matrix and, as its children, the scene's former
    list of nodes, and the scene's list of nodes becomes the wrapper's
    identifier alone; distinct scenes get distinct wrappers, no scene is
    added, and every node whose identifier is not a wrapper's is as the
    engine returned it. *)
Theorem root_nodes_wrap_scenes (host : Host) (settings : Settings)
    (gltf gltf' : Gltf) :
  io_result (assemble host settings (Document gltf)) = Ok gltf' →
  let matrix := nodes_global_matrix settings in
  (Matrix_ne host matrix Matrix_Identity_4 = false →
   gltf_nodes gltf' = gltf_nodes gltf ∧ gltf_scenes gltf' = gltf_scenes gltf)
  ∧ (Matrix_ne host matrix Matrix_Identity_4 = true →
     (∀ scene_id scene, gltf_scenes gltf !! scene_id = Some scene →
        gltf_nodes gltf' !! root_node_id_of scene_id
        = Some (PyDict (<["children" := scene_nodes scene]>
                          (<["matrix" := matrix_tuple host matrix]> ∅)))
        ∧ gltf_scenes gltf' !! scene_id
          = Some {| scene_nodes := PyList [PyStr (root_node_id_of scene_id)];
                    scene_rest := scene_rest scene |})
     ∧ (∀ scene_id, gltf_scenes gltf !! scene_id = None →
          gltf_scenes gltf' !! scene_id = None)
     ∧ (∀ node_id,
          (∀ scene_id, is_Some (gltf_scenes gltf !! scene_id) →
             node_id ≠ root_node_id_of scene_id) →
          gltf_nodes gltf' !! node_id = gltf_nodes gltf !! node_id)
     ∧ (∀ scene_id1 scene_id2,
          root_node_id_of scene_id1 = root_node_id_of scene_id2 →
          scene_id1 = scene_id2)).
Proof.
  intros Hrun matrix.
  apply assemble_frame in Hrun as (-> & -> & _). fold matrix.
  split; intros ->; [done|].
  destruct (add_root_nodes_loop_spec (matrix_tuple host matrix) gltf)
    as (Hin & Hscenes & Hnodes & _).
  split; [|split; [|split]]; [|done|done|apply root_node_id_of_inj].
  intros scene_id scene Hlookup.
  destruct (Hin scene_id scene Hlookup) as [Hscene Hnode]. by split.
Qed.

Lemma root_nodes_wrap_scenes_witness :
  gltf_scenes (Sample.assembled Sample.y_up) !! "Scene"
  = Some {| scene_nodes := PyList [PyStr "Scene_root"]; scene_rest := ∅ |}
  ∧ gltf_nodes (Sample.assembled Sample.y_up) !! "Scene_root"
    = Some (PyDict
              (<["children" :=
                   PyList [PyStr "Camera"; PyStr "Lamp"; PyStr "Cube"; PyStr "Empty"]]>
                 (<["matrix" :=
                      PyTuple (NpFloat32 <$>
                        [-1; 0; 0; 0;  0; 0; 1; 0;  0; 1; 0; 0;  0; 0; 0; 1]%float)]> ∅)))
  ∧ gltf_nodes (Sample.assembled Matrix_Identity_4) = gltf_nodes (Sample.document_of Sample.bpy).
Proof.
  pose proof (root_nodes_wrap_scenes Sample.host
    (Sample.settings_of
       (Sample.keywords_of "/tmp/scene.gltf" false false true true true true)
       Sample.y_up)
    (Sample.document_of Sample.bpy) (Sample.assembled Sample.y_up) eq_refl) as Hturn.
  pose proof (root_nodes_wrap_scenes Sample.host
    (Sample.settings_of
       (Sample.keywords_of "/tmp/scene.gltf" false false true true true true)
       Matrix_Identity_4)
    (Sample.document_of Sample.bpy) (Sample.assembled Matrix_Identity_4) eq_refl)
    as Hsame.
  simpl in Hturn, Hsame.
  destruct Hturn as [_ Hturn]. destruct (Hturn eq_refl) as (Hwrap & _).
  destruct Hsame as [Hsame _]. destruct (Hsame eq_refl) as [Hnodes _].
  destruct (Hwrap "Scene"
              {| scene_nodes :=
                   PyList [PyStr "Camera"; PyStr "Lamp"; PyStr "Cube"; PyStr "Empty"];
                 scene_rest := ∅ |} eq_refl) as [Hnode Hscene].
  split; [exact Hscene|]. split; [exact Hnode|exact Hnodes].
Defined.

(** C5: the completed document's default scene is the first of the scene
    identifiers in sorted order whenever there are scenes (it is one of the
    identifiers, and none is below it), and the key ['scene'] is left as the
    engine returned it, unset if it was unset, when there are none. *)
Theorem default_scene_is_first_sorted (host : Host) (settings : Settings)
    (gltf gltf' : Gltf) :
  io_result (assemble host settings (Document gltf)) = Ok gltf' →
  (gltf_scenes gltf' = ∅ → gltf_scene gltf' = gltf_scene gltf)
  ∧ (gltf_scenes gltf' ≠ ∅ →
     ∃ scene_id,
       gltf_scene gltf' = Some (PyStr scene_id)
       ∧ head (sorted (map_to_list (gltf_scenes gltf')).*1) = Some scene_id
       ∧ is_Some (gltf_scenes gltf' !! scene_id)
       ∧ ∀ k, is_Some (gltf_scenes gltf' !! k) → String.le scene_id k)
  ∧ (∀ k, is_Some (gltf_scenes gltf' !! k) ↔ is_Some (gltf_scenes gltf !! k)).
Proof.
  intros Hrun.
  apply assemble_frame in Hrun as (Hs & _ & _ & Hd1 & Hscene & _).
  set (gltf1 := if Matrix_ne host (nodes_global_matrix settings) Matrix_Identity_4
                then add_root_nodes_loop
                       (matrix_tuple host (nodes_global_matrix settings)) gltf
                else gltf) in *.
  assert (∀ k, is_Some (gltf_scenes gltf1 !! k) ↔ is_Some (gltf_scenes gltf !! k))
    as Hkeys.
  { subst gltf1. case_match; [|done].
    destruct (add_root_nodes_loop_spec
                (matrix_tuple host (nodes_global_matrix settings)) gltf)
      as (Hin & Hout & _).
    intros k. destruct (gltf_scenes gltf !! k) as [scene|] eqn:Hk.
    - by rewrite (proj1 (Hin k scene Hk)).
    - by rewrite Hout. }
  destruct (set_default_scene_spec gltf1)
    as (gltf2 & Hscene' & _ & _ & _ & _ & Hempty & Hfirst).
  rewrite Hscene in Hscene'. injection Hscene' as <-. simpl in Hempty, Hfirst.
  rewrite Hs. split; [|split; [done|]].
  - intros Hnone. by rewrite Hempty.
  - intros k. by rewrite Hkeys.
Qed.

Lemma default_scene_is_first_sorted_witness :
  gltf_scene (Sample.assembled Sample.y_up) = Some (PyStr "Backdrop").
Proof.
  destruct (default_scene_is_first_sorted Sample.host
    (Sample.settings_of
       (Sample.keywords_of "/tmp/scene.gltf" false false true true true true)
       Sample.y_up)
    (Sample.document_of Sample.bpy) (Sample.assembled Sample.y_up) eq_refl)
    as (_ & Hfirst & _).
  destruct Hfirst as (scene_id & Hscene & Hhead & _).
  - intros Hempty.
    assert (gltf_scenes (Sample.assembled Sample.y_up) !! "Scene" = None) as Hnone
      by (rewrite Hempty; apply lookup_empty).
    vm_compute in Hnone. discriminate.
  - rewrite Hscene. f_equal. f_equal.
    assert (head (sorted (map_to_list (gltf_scenes (Sample.assembled Sample.y_up))).*1)
            = Some "Backdrop") as Hsample by (by vm_compute).
    congruence.
Defined.

(** C4: in the completed document every technique parameter that was left
    unset (it has the key ['value'], with the value [None]) holds the entry
    of the table for its type, and every other parameter is as it was; the
    table's entry for [GL_FLOAT] (5126) is 1.0 and its entry for
    [GL_FLOAT_MAT4] (35676) is the sixteen entries of the identity.
    [assemble] returns exactly when every unset parameter has a type that
    is a key of the table, and raises otherwise. *)
Theorem unset_parameters_get_defaults (host : Host) (settings : Settings)
    (gltf : Gltf) :
  ((∃ gltf', io_result (assemble host settings (Document gltf)) = Ok gltf')
   ↔ ∀ t technique name parameter,
       gltf_techniques gltf !! t = Some technique →
       technique_parameters technique !! name = Some parameter →
       param_value parameter = Some PyNone →
       ∃ type, param_type parameter = Some type
         ∧ is_Some (_DEFAULT_VALUES_BY_PARAM_TYPE !! type))
  ∧ (∀ gltf' t technique name parameter,
       io_result (assemble host settings (Document gltf)) = Ok gltf' →
       gltf_techniques gltf !! t = Some technique →
       technique_parameters technique !! name = Some parameter →
       ∃ technique' parameter',
         gltf_techniques gltf' !! t = Some technique'
         ∧ technique_parameters technique' !! name = Some parameter'
         ∧ match param_value parameter with
           | Some PyNone =>
               ∃ type v,
                 param_type parameter = Some type
                 ∧ _DEFAULT_VALUES_BY_PARAM_TYPE !! type = Some v
                 ∧ parameter' = {| param_type := Some type;
                                   param_value := Some v;
                                   param_rest := param_rest parameter |}
           | _ => parameter' = parameter
           end)
  ∧ _DEFAULT_VALUES_BY_PARAM_TYPE !! 5126%Z = Some (PyFloat 1.0)
  ∧ _DEFAULT_VALUES_BY_PARAM_TYPE !! 35676%Z
    = Some (PyTuple (PyFloat <$> [1; 0; 0; 0;  0; 1; 0; 0;
                                  0; 0; 1; 0;  0; 0; 0; 1]%float)).
Proof.
  split; [|split; [|by split; vm_compute]].
  - rewrite assemble_returns. split.
    + intros [techniques Hloop] t technique name parameter Ht Hname Hunset.
      destruct (for_values_fill_technique _ _ _ _ _ _ Hloop Ht Hname)
        as (_ & parameter' & _ & _ & _ & Hfill).
      by apply (proj1 (fill_default_value_returns parameter)); [exists parameter'|].
    + intros Hdefaults. apply for_values_returns.
      intros t technique Ht.
      destruct (for_values_returns fill_default_value (technique_parameters technique))
        as [parameters Hparams].
      { intros name parameter Hname.
        apply fill_default_value_returns. by apply (Hdefaults t technique name). }
      eexists. apply fill_technique_Ok. by exists parameters.
  - intros gltf' t technique name parameter Hrun Ht Hname.
    apply assemble_frame in Hrun as (_ & _ & _ & _ & _ & Hloop).
    destruct (for_values_fill_technique _ _ _ _ _ _ Hloop Ht Hname)
      as (technique' & parameter' & Ht' & _ & Hname' & Hfill).
    exists technique', parameter'. do 2 (split; [done|]).
    apply fill_default_value_Ok in Hfill.
    destruct (param_value parameter) as [[]|]; try done.
    destruct Hfill as (type & v & Htype & Hv & ->).
    exists type, v. unfold set_param_value. by rewrite Htype.
Qed.

Lemma unset_parameters_get_defaults_witness :
  ∃ technique,
    gltf_techniques (Sample.assembled Sample.y_up) !! "technique_Material"
    = Some technique
    ∧ technique_parameters technique !! "shininess"
      = Some {| param_type := Some 5126%Z;
                param_value := Some (PyFloat 1.0);
                param_rest := ∅ |}.
Proof.
  destruct (unset_parameters_get_defaults Sample.host
    (Sample.settings_of
       (Sample.keywords_of "/tmp/scene.gltf" false false true true true true)
       Sample.y_up)
    (Sample.document_of Sample.bpy)) as (_ & Hfilled & Hfloat & _).
  destruct (Hfilled (Sample.assembled Sample.y_up) "technique_Material"
              Sample.technique "shininess"
              {| param_type := Some 5126%Z; param_value := Some PyNone;
                 param_rest := ∅ |} eq_refl eq_refl eq_refl)
    as (technique' & parameter' & Ht & Hname & type & v & [= <-] & Hv & ->).
  exists technique'. split; [done|].
  rewrite Hname. rewrite Hfloat in Hv. by injection Hv as <-.
Defined.

(** ** The events of [execute] *)

(** The last [if] of [execute]: its events and how it ends. *)
Lemma write_files_trace (host : Host) (self : ExportGLTF) (gltf : Gltf) :
  let p := properties self in
  let indent := if pretty_print p then Some 4%Z else None in
  write_files host self gltf
  = if gltf_export_binary p then
      IO [Ev_open (filepath p) "wb"; Ev_close (filepath p)] (Raise TypeError)
    else
      IO ([ Ev_open (filepath p +:+ ".raw") "w";
            Ev_write (filepath p +:+ ".raw") (Pay_items gltf);
            Ev_close (filepath p +:+ ".raw");
            Ev_open (filepath p) "w";
            Ev_write (filepath p) (Pay_json gltf indent) ]
          ++ match json_dump host gltf indent with
             | Ok _ =>
                 if pretty_print p
                 then [Ev_write (filepath p) (Pay_str newline)] else []
             | Raise _ => []
             end
          ++ [Ev_close (filepath p)])
         (json_dump host gltf indent).
Proof.
  intros p indent. unfold write_files. fold p. fold indent.
  destruct (gltf_export_binary p); [done|].
  destruct (json_dump host gltf indent) as [[]|e]; [|done].
  by destruct (pretty_print p).
Qed.

(** The exporters' settings play no part in the writing. *)
Lemma write_files_assign_settings (host : Host) (self : ExportGLTF) (gltf : Gltf) :
  write_files host (assign_settings self) gltf = write_files host self gltf.
Proof. done. Qed.

(** [execute] either raises before it opens a file, or assembles a
    document, prints, and then goes on to write the files. *)
Lemma execute_cases (host : Host) (world : World) (self : ExportGLTF) :
  (∃ prints e,
     execute host world self = IO prints (Raise e)
     ∧ Forall (λ e, is_print e = true) prints)
  ∨ (∃ settings gltf0 gltf prints,
       engine_settings host (assign_settings self) = Ok settings
       ∧ export_gltf host (engine_data host self (bpy_data world)) settings
         = Ok (Document gltf0)
       ∧ assemble host settings (Document gltf0) = IO prints (Ok gltf)
       ∧ execute host world self
         = IO (prints
               ++ Ev_print
                    (Printed_took (perf_counter world 1 - perf_counter world 0)%float)
               :: io_trace (write_files host self gltf))
             match io_result (write_files host self gltf) with
             | Ok _ => Ok FINISHED
             | Raise e => Raise e
             end).
Proof.
  unfold execute.
  destruct (engine_settings host (assign_settings self)) as [settings|e] eqn:Hsettings.
  2:{ left. exists [], e. split; [|constructor]. by apply io_bind_Raise. }
  rewrite lift_Ok_bind.
  destruct (export_gltf host _ settings) as [returned|e] eqn:Hengine.
  2:{ left. exists [], e. split; [|constructor]. by apply io_bind_Raise. }
  rewrite lift_Ok_bind.
  pose proof (assemble_prints host settings returned) as Hprints.
  destruct (assemble host settings returned) as [prints [gltf|e]] eqn:Hassemble.
  2:{ left. exists prints, e. split; [|done]. by apply io_bind_Raise. }
  destruct (assemble_Ok_Document host settings returned gltf) as [gltf0 ->];
    [by rewrite Hassemble|].
  right. exists settings, gltf0, gltf, prints. do 3 (split; [done|]).
  rewrite (io_bind_Ok _ _ gltf) by done. rewrite emit_bind.
  rewrite write_files_assign_settings.
  cbn [io_trace io_result]. f_equal.
  - f_equal. f_equal.
    destruct (write_files host self gltf) as [files [[]|e]].
    + rewrite (io_bind_Ok _ _ tt) by done. cbn [io_trace mret io_ret].
      by rewrite app_nil_r.
    + by rewrite (io_bind_Raise _ _ e).
  - destruct (write_files host self gltf) as [files [[]|e]].
    + by rewrite (io_bind_Ok _ _ tt).
    + by rewrite (io_bind_Raise _ _ e).
Qed.








Lemma opened_prints (prints : list event) :
  Forall (λ e, is_print e = true) prints → opened prints = [].
Proof.
  induction 1 as [|e prints He _ IH]; [done|]. by destruct e.
Qed.




(** A call of [execute] leaves the operator in a state from which a call
    does what it does from the state before: the exporters are assigned the
    same settings again. *)
Lemma attach_settings_assign_settings (self : ExportGLTF) (e : Exporter) :
  attach_settings (assign_settings self) (attach_settings self e)
  = attach_settings self e.
Proof. done. Qed.




(** ** The camera converter *)

(** C6: a perspective camera with [angle_x = 0.8576], [angle_y = 0.5034],
    [clip_start = 0.1] and [clip_end = 100.0] converts to a perspective
    camera record with [yfov = 0.5034], [zfar = 100.0], [znear = 0.1] and
    an aspect ratio that is the quotient of the two angles, which is 1.7036
    to four decimal places. *)
Theorem export_camera_scenario_A (name : string) (scale : float) :
  ∃ ratio,
    export_camera
      {| camera_name := name;
         camera_kind := PERSP;
         angle_x := Some 0.8576%float;
         angle_y := Some 0.5034%float;
         clip_end := 100.0;
         clip_start := 0.1;
         ortho_scale := scale |}
    = Some {| gltf_camera_name := name;
              perspective :=
                {| aspectRatio := Some ratio;
                   yfov := Some 0.5034%float;
                   zfar := 100.0;
                   znear := 0.1 |};
              gltf_camera_type := "perspective" |}
    ∧ ratio = (0.8576 / 0.5034)%float
    ∧ (abs (ratio - 1.7036) <? 0.00005)%float = true.
Proof.
  exists (0.8576 / 0.5034)%float. split; [done|]. split; [done|]. by vm_compute.
Qed.

(** On the camera of the tests' fixture the converter gives the fixture's
    expected record, to the last bit of the aspect ratio. *)
Example export_camera_default :
  export_camera bpy_camera_default = Some gltf_camera_default.
Proof. by vm_compute. Qed.

(** ** Calls that do not finish *)

(** X1: when the engine's document has an unset parameter whose type is not a
    key of the table, [execute] raises [KeyError] and opens no file. *)
Theorem missing_default_aborts (host : Host) (world : World) (self : ExportGLTF)
    (settings : Settings) (gltf0 : Gltf) (t : string) (technique : Technique)
    (name : string) (parameter : TechParameter) :
  engine_settings host (assign_settings self) = Ok settings →
  export_gltf host (engine_data host self (bpy_data world)) settings
  = Ok (Document gltf0) →
  gltf_techniques gltf0 !! t = Some technique →
  technique_parameters technique !! name = Some parameter →
  param_value parameter = Some PyNone →
  (∀ type, param_type parameter = Some type →
     _DEFAULT_VALUES_BY_PARAM_TYPE !! type = None) →
  io_result (execute host world self) = Raise KeyError
  ∧ opened (io_trace (execute host world self)) = [].
Proof.
  intros Hsettings Hengine Ht Hname Hunset Hmissing.
  destruct (io_result (assemble host settings (Document gltf0)))
    as [gltf|e] eqn:Hassemble.
  { apply assemble_frame in Hassemble as (_ & _ & _ & _ & _ & Hloop).
    destruct (for_values_fill_technique _ _ _ _ _ _ Hloop Ht Hname)
      as (_ & parameter' & _ & _ & _ & Hfill).
    destruct (proj1 (fill_default_value_returns parameter)
                (ex_intro _ parameter' Hfill) Hunset) as (type & Htype & [v Hv]).
    rewrite (Hmissing type Htype) in Hv. done. }
  apply assemble_Raise in Hassemble as Hkey. subst e.
  pose proof (assemble_prints host settings (Document gltf0)) as Hprints.
  unfold execute. rewrite Hsettings, lift_Ok_bind, Hengine, lift_Ok_bind.
  rewrite (io_bind_Raise _ _ KeyError Hassemble). cbn [io_result io_trace].
  split; [done|]. by apply opened_prints.
Qed.

Lemma missing_default_aborts_witness :
  io_result
    (execute Sample.host_textured (Sample.world 1 2)
       (Sample.operator
          (Sample.keywords_of "/tmp/scene.gltf" false false true true true true)
          AxisZ AxisY))
  = Raise KeyError.
Proof.
  eapply (missing_default_aborts Sample.host_textured (Sample.world 1 2)
            (Sample.operator
               (Sample.keywords_of "/tmp/scene.gltf" false false true true true true)
               AxisZ AxisY)
            _ _ "technique_Textured" Sample.technique_textured "diffuse"
            {| param_type := Some 35678%Z; param_value := Some PyNone;
               param_rest := ∅ |}).
  all: try reflexivity.
  intros type [= <-]. reflexivity.
Defined.



(** With the operator's default axes (forward [Z], up [Y]) the wrapper nodes
    of the sample hold [numpy.float32] entries, on which the standard
    encoder raises: the export in text mode raises out of [json.dump], after
    both files were opened. *)
Example text_export_default_axes :
  io_result
    (execute Sample.host (Sample.world 1 2)
       (Sample.operator
          (Sample.keywords_of "/tmp/scene.gltf" false false true true true true)
          AxisZ AxisY))
  = Raise TypeError
  ∧ opened
      (io_trace
         (execute Sample.host (Sample.world 1 2)
            (Sample.operator
               (Sample.keywords_of "/tmp/scene.gltf" false false true true true true)
               AxisZ AxisY)))
    = ["/tmp/scene.gltf.raw"; "/tmp/scene.gltf"].
Proof. split; by vm_compute. Qed.

(** ** [update_extensions] *)

Lemma for_each_app {A S : Type} (body : A → S → result S) (l1 l2 : list A) (s : S) :
  for_each body (l1 ++ l2) s = for_each body l1 s ≫= for_each body l2.
Proof.
  revert s. induction l1 as [|x l1 IH]; intros s; [done|].
  simpl. destruct (body x s) as [s'|e]; simpl; [apply IH|done].
Qed.

Lemma exporter_positions_snoc (exporters : list Exporter) (ext : Exporter) :
  exporter_positions (exporters ++ [ext])
  = <[ext_meta_name ext := length exporters]> (exporter_positions exporters).
Proof.
  unfold exporter_positions. rewrite imap_app, foldl_app. simpl.
  by rewrite Nat.add_0_r.
Qed.

Lemma exporter_map_snoc (exporters : list Exporter) (ext : Exporter) :
  exporter_map (exporters ++ [ext])
  = <[ext_meta_name ext := ext]> (exporter_map exporters).
Proof. unfold exporter_map. by rewrite foldl_app. Qed.

(** The position under a name is the last position of the list that holds
    an exporter of that name. *)
Lemma exporter_positions_Some (exporters : list Exporter) (name : string) (i : nat) :
  exporter_positions exporters !! name = Some i
  ↔ (∃ ext, exporters !! i = Some ext ∧ ext_meta_name ext = name)
    ∧ ∀ j ext, i < j → exporters !! j = Some ext → ext_meta_name ext ≠ name.
Proof.
  revert i. induction exporters as [|ext exporters IH] using rev_ind; intros i.
  { split; [done|]. by intros [(ext & ? & _) _]. }
  rewrite exporter_positions_snoc.
  destruct (decide (ext_meta_name ext = name)) as [Hname|Hname].
  - rewrite Hname, lookup_insert_eq. split.
    + intros [= <-]. split.
      * exists ext. by rewrite list_lookup_middle.
      * intros j ext' Hj Hlookup. apply lookup_lt_Some in Hlookup.
        rewrite length_app in Hlookup. simpl in Hlookup. lia.
    + intros [(ext' & Hi & _) Hlast]. f_equal.
      apply lookup_lt_Some in Hi as Hlt. rewrite length_app in Hlt. simpl in Hlt.
      destruct (decide (i = length exporters)) as [->|Hne]; [done|].
      exfalso. apply (Hlast (length exporters) ext); [lia| |done].
      by rewrite list_lookup_middle.
  - rewrite lookup_insert_ne by done. rewrite IH. split.
    + intros [(ext' & Hi & Hn) Hlast]. split.
      * exists ext'. split; [|done]. by apply lookup_app_l_Some.
      * intros j ext'' Hj Hlookup.
        apply lookup_app_Some in Hlookup as [Hlookup|[_ Hlookup]].
        -- by apply (Hlast j).
        -- apply list_lookup_singleton_Some in Hlookup as [_ <-]. done.
    + intros [(ext' & Hi & Hn) Hlast].
      apply lookup_app_Some in Hi as [Hi|[_ Hi]].
      * split; [by exists ext'|]. intros j ext'' Hj Hlookup.
        apply (Hlast j); [done|]. by apply lookup_app_l_Some.
      * apply list_lookup_singleton_Some in Hi as [_ <-]. done.
Qed.

Lemma exporter_positions_None (exporters : list Exporter) (name : string) :
  exporter_positions exporters !! name = None
  ↔ name ∉ ext_meta_name <$> exporters.
Proof.
  induction exporters as [|ext exporters IH] using rev_ind.
  { split; [|done]. intros _. by apply not_elem_of_nil. }
  rewrite exporter_positions_snoc, fmap_app, not_elem_of_app. simpl.
  rewrite list_elem_of_singleton.
  destruct (decide (ext_meta_name ext = name)) as [Hname|Hname].
  - rewrite Hname, lookup_insert_eq. split; [done|]. by intros [_ ?].
  - rewrite lookup_insert_ne by done. rewrite IH. split; [|by intros [? _]].
    intros ?. split; [done|]. congruence.
Qed.

Lemma exporter_positions_is_Some (exporters : list Exporter) (name : string) :
  is_Some (exporter_positions exporters !! name)
  ↔ name ∈ ext_meta_name <$> exporters.
Proof.
  rewrite <- not_eq_None_Some, exporter_positions_None.
  split; [apply dec_stable|]. by intros ? ?.
Qed.

(** The value under a name is the exporter at the position under it. *)
Lemma exporter_map_positions (exporters : list Exporter) (name : string) :
  exporter_map exporters !! name
  = exporter_positions exporters !! name ≫= (exporters !!.).
Proof.
  induction exporters as [|ext exporters IH] using rev_ind; [done|].
  rewrite exporter_map_snoc, exporter_positions_snoc.
  destruct (decide (ext_meta_name ext = name)) as [Hname|Hname].
  - rewrite Hname, !lookup_insert_eq. simpl. by rewrite list_lookup_middle.
  - rewrite !lookup_insert_ne by done. rewrite IH.
    destruct (exporter_positions exporters !! name) as [i|] eqn:Hi; [|done].
    simpl. apply exporter_positions_Some in Hi as [(ext' & Hi & _) _].
    rewrite Hi. symmetry. by apply lookup_app_l_Some.
Qed.

Lemma exporter_map_name (exporters : list Exporter) (name : string) (ext : Exporter) :
  exporter_map exporters !! name = Some ext →
  ext_meta_name ext = name ∧ ext ∈ exporters.
Proof.
  rewrite exporter_map_positions.
  destruct (exporter_positions exporters !! name) as [i|] eqn:Hi; [|done].
  simpl. intros Hext.
  apply exporter_positions_Some in Hi as [(ext' & Hi & Hname) _].
  rewrite Hext in Hi. injection Hi as <-. split; [done|].
  by apply list_elem_of_lookup_2 in Hext.
Qed.

Lemma exporter_map_is_Some (exporters : list Exporter) (name : string) :
  is_Some (exporter_map exporters !! name)
  ↔ name ∈ ext_meta_name <$> exporters.
Proof.
  rewrite <- exporter_positions_is_Some, exporter_map_positions. split.
  - intros [ext Hext]. destruct (exporter_positions exporters !! name); [done|].
    by simpl in Hext.
  - intros [i Hi]. rewrite Hi. simpl.
    by apply exporter_positions_Some in Hi as [(ext & -> & _) _].
Qed.

(** The loop over the properties. *)
Lemma for_each_set_enable_returns (positions : gmap string nat)
    (props : list (string * bool)) (enables : list bool) :
  (∃ enables', for_each (set_enable positions) props enables = Ok enables')
  ↔ ∀ prop, prop ∈ props → is_Some (positions !! prop.1).
Proof.
  revert enables. induction props as [|prop props IH]; intros enables.
  { split; [|by eexists]. intros _ prop Hin. by apply elem_of_nil in Hin. }
  rewrite for_each_cons. unfold set_enable at 1.
  destruct (positions !! prop.1) as [i|] eqn:Hi.
  - rewrite IH. split.
    + intros Hall prop' [->|Hin]%elem_of_cons; [by rewrite Hi|by apply Hall].
    + intros Hall prop' Hin. apply Hall. by right.
  - split; [by intros [? ?]|]. intros Hall.
    destruct (Hall prop) as [i Hi']; [by left|congruence].
Qed.

Lemma for_each_set_enable_Raise (positions : gmap string nat)
    (props : list (string * bool)) (enables : list bool) (e : exn) :
  for_each (set_enable positions) props enables = Raise e → e = KeyError.
Proof.
  revert enables. induction props as [|prop props IH]; intros enables; [done|].
  rewrite for_each_cons. unfold set_enable at 1.
  destruct (positions !! prop.1); [apply IH|by intros [= <-]].
Qed.

Lemma for_each_set_enable_length (positions : gmap string nat)
    (props : list (string * bool)) (enables enables' : list bool) :
  for_each (set_enable positions) props enables = Ok enables' →
  length enables' = length enables.
Proof.
  revert enables. induction props as [|prop props IH]; intros enables.
  { by intros [= <-]. }
  rewrite for_each_cons. unfold set_enable at 1.
  destruct (positions !! prop.1) as [i|]; [|done].
  intros Hloop. apply IH in Hloop. by rewrite length_insert in Hloop.
Qed.

(** An entry that no property refers to is left as it was. *)
Lemma for_each_set_enable_other (positions : gmap string nat)
    (props : list (string * bool)) (enables enables' : list bool) (i : nat) :
  for_each (set_enable positions) props enables = Ok enables' →
  (∀ prop, prop ∈ props → positions !! prop.1 ≠ Some i) →
  enables' !! i = enables !! i.
Proof.
  revert enables. induction props as [|prop props IH]; intros enables.
  { by intros [= <-]. }
  rewrite for_each_cons. unfold set_enable at 1.
  destruct (positions !! prop.1) as [j|] eqn:Hj; [|done].
  intros Hloop Hother. rewrite (IH _ Hloop).
  - apply list_lookup_insert_ne. intros ->. by apply (Hother prop); [left|].
  - intros prop' Hin. apply Hother. by right.
Qed.

(** An entry holds what the last property that refers to it says. *)
Lemma for_each_set_enable_last (positions : gmap string nat)
    (props1 props2 : list (string * bool)) (prop : string * bool)
    (enables enables' : list bool) (i : nat) :
  for_each (set_enable positions) (props1 ++ prop :: props2) enables = Ok enables' →
  positions !! prop.1 = Some i →
  i < length enables →
  (∀ prop', prop' ∈ props2 → positions !! prop'.1 ≠ Some i) →
  enables' !! i = Some prop.2.
Proof.
  intros Hloop Hi Hlt Hlast. rewrite for_each_app in Hloop.
  apply bind_Ok in Hloop as (enables1 & Hloop1 & Hloop).
  rewrite for_each_cons in Hloop. unfold set_enable at 1 in Hloop.
  rewrite Hi in Hloop. rewrite (for_each_set_enable_other _ _ _ _ _ Hloop Hlast).
  apply list_lookup_insert_eq.
  by rewrite (for_each_set_enable_length _ _ _ _ Hloop1).
Qed.

Lemma update_extensions_Ok (self self' : ExportGLTF) (enables : list bool) :
  update_extensions self = Ok (self', enables) ↔
  for_each (set_enable (exporter_positions (ext_exporters self)))
    (extension_props (properties self))
    (replicate (length (ext_exporters self)) false) = Ok enables
  ∧ self'
    = {| properties :=
           set_extension_props
             (zip_with
                (add_prop self) (ext_exporters self) enables)
             (properties self);
         axis_forward := axis_forward self;
         axis_up := axis_up self;
         filename_ext := filename_ext self;
         ext_exporters := ext_exporters self;
         ext_prop_to_exporter_map := exporter_map (ext_exporters self) |}.
Proof.
  unfold update_extensions.
  cbn [set_ext_prop_to_exporter_map properties ext_exporters].
  rewrite bind_Ok. split.
  - intros (enables' & Hloop & [= <- <-]). done.
  - intros [Hloop ->]. by exists enables.
Qed.

(** X4: [update_extensions] returns exactly when every extension property
    bears the name of an exporter of [ext_exporters], and raises [KeyError]
    otherwise (in particular it returns when there are no properties
    yet). *)
Theorem update_extensions_returns (self : ExportGLTF) :
  ((∃ updated, update_extensions self = Ok updated)
   ↔ ∀ prop, prop ∈ extension_props (properties self) →
       prop.1 ∈ ext_meta_name <$> ext_exporters self)
  ∧ (∀ e, update_extensions self = Raise e → e = KeyError)
  ∧ (extension_props (properties self) = [] →
     ∃ updated, update_extensions self = Ok updated).
Proof.
  assert ((∃ updated, update_extensions self = Ok updated)
          ↔ ∀ prop, prop ∈ extension_props (properties self) →
              prop.1 ∈ ext_meta_name <$> ext_exporters self) as Hreturns.
  { split.
    - intros [[self' enables] Hrun] prop Hin.
      apply update_extensions_Ok in Hrun as [Hloop _].
      apply exporter_positions_is_Some.
      eapply for_each_set_enable_returns; [by eexists|done].
    - intros Hall.
      destruct (proj2 (for_each_set_enable_returns
                         (exporter_positions (ext_exporters self))
                         (extension_props (properties self))
                         (replicate (length (ext_exporters self)) false)))
        as [enables Hloop].
      { intros prop Hin. by apply exporter_positions_is_Some, Hall. }
      eexists (_, enables). by apply update_extensions_Ok. }
  split; [done|]. split.
  - unfold update_extensions.
    cbn [set_ext_prop_to_exporter_map properties ext_exporters].
    destruct (for_each _ _ _) as [enables|e'] eqn:Hloop; [done|].
    intros e [= <-]. by apply for_each_set_enable_Raise in Hloop.
  - intros Hnil. apply Hreturns. rewrite Hnil.
    intros prop Hin. by apply elem_of_nil in Hin.
Qed.

Lemma fst_zip_with_add_prop (self : ExportGLTF) (exporters : list Exporter)
    (enables : list bool) :
  length enables = length exporters →
  (zip_with (add_prop self) exporters enables).*1 = ext_meta_name <$> exporters.
Proof.
  revert enables. induction exporters as [|ext exporters IH];
    intros [|enable enables] Hlen; try done.
  simpl. f_equal. apply IH. by injection Hlen.
Qed.

(** What [update_extensions] leaves. *)
Lemma update_extensions_spec (self self' : ExportGLTF) (enables : list bool) :
  update_extensions self = Ok (self', enables) →
  (extension_props (properties self')).*1 = ext_meta_name <$> ext_exporters self
  ∧ length enables = length (ext_exporters self)
  ∧ ext_prop_to_exporter_map self' = exporter_map (ext_exporters self)
  ∧ ext_exporters self' = ext_exporters self
  ∧ asset_version (properties self') = asset_version (properties self)
  ∧ materials_disable (properties self') = materials_disable (properties self).
Proof.
  intros [Hloop ->]%update_extensions_Ok.
  apply for_each_set_enable_length in Hloop as Hlen.
  rewrite length_replicate in Hlen.
  cbn [properties extension_props set_extension_props ext_prop_to_exporter_map].
  split; [by apply fst_zip_with_add_prop|]. done.
Qed.

(** X5: [update_extensions] rebuilds the extension properties from the
    exporters: afterwards there is one property per exporter, in the order
    of [ext_exporters] and under the exporter's name, whatever properties
    there were before; the dictionary has the exporters' names as its keys,
    each leading to an exporter of that name; and nothing else of the
    operator has changed. *)
Theorem update_extensions_rebuilds (self self' : ExportGLTF) (enables : list bool) :
  update_extensions self = Ok (self', enables) →
  (extension_props (properties self')).*1 = ext_meta_name <$> ext_exporters self
  ∧ length enables = length (ext_exporters self)
  ∧ (∀ name, is_Some (ext_prop_to_exporter_map self' !! name)
             ↔ name ∈ ext_meta_name <$> ext_exporters self)
  ∧ (∀ name ext, ext_prop_to_exporter_map self' !! name = Some ext →
       ext_meta_name ext = name ∧ ext ∈ ext_exporters self)
  ∧ set_ext_prop_to_exporter_map (ext_prop_to_exporter_map self)
      (set_properties
         (set_extension_props (extension_props (properties self))
            (properties self')) self')
    = self.
Proof.
  intros [Hloop ->]%update_extensions_Ok.
  apply for_each_set_enable_length in Hloop as Hlen.
  rewrite length_replicate in Hlen.
  cbn [properties extension_props set_extension_props ext_prop_to_exporter_map].
  split; [by apply fst_zip_with_add_prop|]. split; [done|].
  split; [apply exporter_map_is_Some|]. split; [apply exporter_map_name|].
  by destruct self as [[] ? ? ? ? ?].
Qed.

(** A position that a name leads to holds an exporter of that name. *)
Lemma exporter_positions_name (exporters : list Exporter) (name : string)
    (i : nat) (ext : Exporter) :
  exporter_positions exporters !! name = Some i →
  exporters !! i = Some ext →
  ext_meta_name ext = name.
Proof.
  intros [(ext' & Hi & Hname) _]%exporter_positions_Some Hext. congruence.
Qed.

(** The ['enable'] entries after the second loop of [update_extensions]. *)
Lemma update_extensions_enables (exporters : list Exporter)
    (props : list (string * bool)) (enables : list bool) (i : nat) (ext : Exporter) :
  for_each (set_enable (exporter_positions exporters)) props
    (replicate (length exporters) false) = Ok enables →
  exporters !! i = Some ext →
  (exporter_positions exporters !! ext_meta_name ext ≠ Some i →
   enables !! i = Some false)
  ∧ (ext_meta_name ext ∉ props.*1 → enables !! i = Some false)
  ∧ (exporter_positions exporters !! ext_meta_name ext = Some i →
     ∀ props1 enable props2,
       props = props1 ++ (ext_meta_name ext, enable) :: props2 →
       ext_meta_name ext ∉ props2.*1 →
       enables !! i = Some enable).
Proof.
  intros Hloop Hext. apply lookup_lt_Some in Hext as Hlt.
  assert (replicate (length exporters) false !! i = Some false) as Hfalse
    by by apply lookup_replicate.
  split; [|split].
  - intros Hshadowed.
    rewrite (for_each_set_enable_other _ _ _ _ i Hloop); [done|].
    intros prop _ Hi.
    by rewrite (exporter_positions_name _ _ _ _ Hi Hext) in Hshadowed.
  - intros Hnone.
    rewrite (for_each_set_enable_other _ _ _ _ i Hloop); [done|].
    intros prop Hin Hi. apply Hnone.
    rewrite (exporter_positions_name _ _ _ _ Hi Hext).
    apply list_elem_of_fmap. by exists prop.
  - intros Hi props1 enable props2 -> Hlast.
    apply (for_each_set_enable_last _ props1 props2 (ext_meta_name ext, enable)
             _ _ i Hloop); [done|by rewrite length_replicate|].
    intros prop Hin Hi'. apply Hlast.
    rewrite (exporter_positions_name _ _ _ _ Hi' Hext).
    apply list_elem_of_fmap. by exists prop.
Qed.

Lemma lookup_zip_with_add_prop (self : ExportGLTF) (exporters : list Exporter)
    (enables : list bool) (i : nat) (ext : Exporter) (enable : bool) :
  exporters !! i = Some ext →
  enables !! i = Some enable →
  zip_with (add_prop self) exporters enables !! i = Some (add_prop self ext enable).
Proof. intros Hext Henable. rewrite lookup_zip_with, Hext. simpl. by rewrite Henable. Qed.

(** X6: what the rebuilt property of an exporter says.  For the exporter
    named [KHR_technique_webgl] it says whether the asset version is below
    2.0, whatever it said before.  For any other exporter that is the last
    of its name in [ext_exporters], it says what the last property of that
    name said before, and [False] when there was no such property; for an
    exporter followed by another of the same name it says [False]. *)
Theorem update_extensions_keeps_choices (self self' : ExportGLTF)
    (enables : list bool) (i : nat) (ext : Exporter) :
  update_extensions self = Ok (self', enables) →
  ext_exporters self !! i = Some ext →
  let name := ext_meta_name ext in
  let props := extension_props (properties self) in
  ∃ enable,
    extension_props (properties self') !! i = Some (name, enable)
    ∧ (name = "KHR_technique_webgl" →
       enable = version_lt_2_0 (asset_version (properties self)))
    ∧ (name ≠ "KHR_technique_webgl" →
       ((∃ j later, i < j ∧ ext_exporters self !! j = Some later
                    ∧ ext_meta_name later = name) →
        enable = false)
       ∧ (name ∉ props.*1 → enable = false)
       ∧ ((∀ j later, i < j → ext_exporters self !! j = Some later →
             ext_meta_name later ≠ name) →
          ∀ props1 chosen props2,
            props = props1 ++ (name, chosen) :: props2 →
            name ∉ props2.*1 →
            enable = chosen)).
Proof.
  intros [Hloop ->]%update_extensions_Ok Hext name props.
  destruct (update_extensions_enables _ _ _ i ext Hloop Hext)
    as (Hshadowed & Hnone & Hlast).
  apply for_each_set_enable_length in Hloop as Hlen.
  rewrite length_replicate in Hlen.
  destruct (enables !! i) as [enable|] eqn:Henable.
  2:{ apply lookup_ge_None in Henable. apply lookup_lt_Some in Hext. lia. }
  cbn [properties extension_props set_extension_props].
  rewrite (lookup_zip_with_add_prop _ _ _ _ _ _ Hext Henable).
  unfold add_prop. fold name.
  destruct (String.eqb name "KHR_technique_webgl") eqn:Hkhr.
  - apply String.eqb_eq in Hkhr. eexists. split; [done|]. split; [done|].
    by intros ?.
  - apply String.eqb_neq in Hkhr. exists enable. split; [done|].
    split; [by intros ?|]. intros _. split; [|split].
    + intros (j & later & Hj & Hlater & Hname).
      assert (Some enable = Some false) as [= ->]; [|done].
      apply Hshadowed. intros [_ Hnot]%exporter_positions_Some.
      by apply (Hnot j later).
    + intros Hin. by assert (Some enable = Some false) as [= ->] by by apply Hnone.
    + intros Hnolater props1 chosen props2 Hprops Hnotin.
      assert (Some enable = Some chosen) as [= ->]; [|done].
      apply (Hlast) with props1 props2; [|done|done].
      apply exporter_positions_Some. split; [by exists ext|done].
Qed.

Lemma set_extension_props_twice (v w : list (string * bool)) (k : Keywords) :
  set_extension_props v (set_extension_props w k) = set_extension_props v k.
Proof. done. Qed.

(** X7: calling [update_extensions] a second time changes nothing: on the
    operator a call leaves, the method returns and leaves the same
    operator. *)
Theorem update_extensions_twice (self self' : ExportGLTF) (enables : list bool) :
  update_extensions self = Ok (self', enables) →
  ∃ enables', update_extensions self' = Ok (self', enables').
Proof.
  intros [Hloop ->]%update_extensions_Ok.
  set (exporters := ext_exporters self) in *.
  apply for_each_set_enable_length in Hloop as Hlen.
  rewrite length_replicate in Hlen.
  set (props' := zip_with (add_prop self) exporters enables).
  assert (props'.*1 = ext_meta_name <$> exporters) as Hnames
    by by apply fst_zip_with_add_prop.
  destruct (proj2 (for_each_set_enable_returns (exporter_positions exporters)
                     props' (replicate (length exporters) false)))
    as [enables2 Hloop2].
  { intros prop Hin. apply exporter_positions_is_Some. rewrite <- Hnames.
    apply list_elem_of_fmap. by exists prop. }
  apply for_each_set_enable_length in Hloop2 as Hlen2.
  rewrite length_replicate in Hlen2.
  exists enables2. apply update_extensions_Ok.
  cbn [properties extension_props set_extension_props ext_exporters
       axis_forward axis_up filename_ext].
  fold exporters. fold props'. split; [done|].
  rewrite set_extension_props_twice. f_equal. f_equal. symmetry. subst props'. apply list_eq. intros i.
  rewrite !lookup_zip_with.
  destruct (exporters !! i) as [ext|] eqn:Hext; [|done]. simpl.
  apply lookup_lt_Some in Hext as Hlt.
  destruct (enables !! i) as [enable|] eqn:Henable.
  2:{ apply lookup_ge_None in Henable. lia. }
  destruct (enables2 !! i) as [enable2|] eqn:Henable2.
  2:{ apply lookup_ge_None in Henable2. lia. }
  simpl. f_equal. unfold add_prop.
  cbn [properties asset_version set_extension_props].
  destruct (String.eqb (ext_meta_name ext) "KHR_technique_webgl") eqn:Hkhr; [done|].
  f_equal.
  destruct (update_extensions_enables _ _ _ i ext Hloop Hext) as (Hshadowed & _).
  destruct (update_extensions_enables _ _ _ i ext Hloop2 Hext)
    as (Hshadowed2 & _ & Hlast2).
  destruct (decide (exporter_positions exporters !! ext_meta_name ext = Some i))
    as [Hi|Hi].
  - assert (Some enable2 = Some enable) as [= ->]; [|done].
    rewrite <- Henable2.
    apply (Hlast2 Hi (take i (zip_with (add_prop self) exporters enables)) enable
             (drop (S i) (zip_with (add_prop self) exporters enables))).
    + symmetry. apply take_drop_middle.
      rewrite (lookup_zip_with_add_prop _ _ _ _ _ _ Hext Henable).
      unfold add_prop. by rewrite Hkhr.
    + rewrite fmap_drop, Hnames.
      intros (k & Hk)%list_elem_of_lookup. rewrite lookup_drop in Hk.
      apply list_lookup_fmap_Some in Hk as (later & Hlater & Hname).
      apply exporter_positions_Some in Hi as [_ Hnot].
      apply (Hnot (S i + k) later); [lia|done|done].
  - assert (Some enable2 = Some enable) as [= ->]; [|done].
    by rewrite <- Henable2, <- Henable, Hshadowed, Hshadowed2.
Qed.

(** ** The exporters handed to the engine *)

Lemma select_exporters_cons (self : ExportGLTF) (prop : string * bool)
    (props : list (string * bool)) :
  select_exporters self (prop :: props)
  = if is_selected self prop then
      match ext_prop_to_exporter_map self !! prop.1 with
      | Some ext => exts ← select_exporters self props; Ok (ext :: exts)
      | None => Raise KeyError
      end
    else select_exporters self props.
Proof. by destruct prop. Qed.

Lemma select_exporters_returns (self : ExportGLTF) (props : list (string * bool)) :
  (∃ exts, select_exporters self props = Ok exts)
  ↔ ∀ prop, prop ∈ props → is_selected self prop = true →
      is_Some (ext_prop_to_exporter_map self !! prop.1).
Proof.
  induction props as [|prop props IH].
  { split; [|by eexists]. intros _ prop Hin. by apply elem_of_nil in Hin. }
  rewrite select_exporters_cons.
  destruct (is_selected self prop) eqn:Hsel.
  - destruct (ext_prop_to_exporter_map self !! prop.1) as [ext|] eqn:Hext.
    + split.
      * intros [exts Hexts]. apply bind_Ok in Hexts as (exts' & Hexts' & _).
        intros prop' [->|Hin]%elem_of_cons; [by rewrite Hext|].
        apply IH; [by eexists|done].
      * intros Hall. destruct (proj2 IH) as [exts ->]; [|by eexists].
        intros prop' Hin. apply Hall. by right.
    + split; [by intros [? ?]|]. intros Hall.
      destruct (Hall prop) as [ext Hext']; [by left|done|congruence].
  - rewrite IH. split.
    + intros Hall prop' [->|Hin]%elem_of_cons; [congruence|by apply Hall].
    + intros Hall prop' Hin. apply Hall. by right.
Qed.

Lemma select_exporters_Raise (self : ExportGLTF) (props : list (string * bool))
    (e : exn) :
  select_exporters self props = Raise e → e = KeyError.
Proof.
  induction props as [|prop props IH]; [done|].
  rewrite select_exporters_cons.
  destruct (is_selected self prop); [|done].
  destruct (ext_prop_to_exporter_map self !! prop.1); [|by intros [= <-]].
  destruct (select_exporters self props); [done|]. simpl. intros [= <-]. by apply IH.
Qed.

Lemma select_exporters_Ok (self : ExportGLTF) (props : list (string * bool))
    (exts : list Exporter) :
  select_exporters self props = Ok exts →
  Forall2 (λ ext prop, ext_prop_to_exporter_map self !! prop.1 = Some ext)
    exts (List.filter (is_selected self) props).
Proof.
  revert exts. induction props as [|prop props IH]; intros exts.
  { intros [= <-]. constructor. }
  rewrite select_exporters_cons. simpl.
  destruct (is_selected self prop); [|apply IH].
  destruct (ext_prop_to_exporter_map self !! prop.1) as [ext|] eqn:Hext; [|done].
  intros (exts' & Hexts' & [= <-])%bind_Ok. constructor; [done|by apply IH].
Qed.

Lemma engine_settings_Ok (host : Host) (self : ExportGLTF) (settings : Settings) :
  engine_settings host self = Ok settings →
  select_exporters self (extension_props (properties self))
  = Ok (extension_exporters settings).
Proof.
  unfold engine_settings. intros (exts & Hexts & [= <-])%bind_Ok. done.
Qed.

Lemma engine_settings_returns (host : Host) (self : ExportGLTF) :
  (∃ settings, engine_settings host (assign_settings self) = Ok settings)
  ↔ ∀ prop, prop ∈ extension_props (properties self) →
      is_selected self prop = true →
      is_Some (ext_prop_to_exporter_map self !! prop.1).
Proof.
  etrans; [|etrans; [apply (select_exporters_returns (assign_settings self)
                              (extension_props (properties self)))|]].
  - unfold engine_settings. cbn [properties assign_settings]. split.
    + intros [settings (exts & Hexts & _)%bind_Ok]. by exists exts.
    + intros [exts ->]. by eexists.
  - split; intros Hall prop Hin Hsel.
    + destruct (Hall prop Hin Hsel) as [ext Hext].
      cbn [ext_prop_to_exporter_map assign_settings] in Hext.
      rewrite lookup_fmap in Hext.
      by destruct (ext_prop_to_exporter_map self !! prop.1).
    + destruct (Hall prop Hin Hsel) as [ext Hext].
      cbn [ext_prop_to_exporter_map assign_settings].
      rewrite lookup_fmap, Hext. by eexists.
Qed.

Lemma engine_settings_Raise (host : Host) (self : ExportGLTF) (e : exn) :
  engine_settings host self = Raise e → e = KeyError.
Proof.
  unfold engine_settings.
  destruct (select_exporters _ _) as [exts|e'] eqn:Hexts; [done|].
  intros [= <-]. by apply select_exporters_Raise in Hexts.
Qed.

Lemma engine_settings_handed (host : Host) (self : ExportGLTF) (settings : Settings) :
  engine_settings host (assign_settings self) = Ok settings →
  Forall2
    (λ handed prop,
       ∃ ext, ext_prop_to_exporter_map self !! prop.1 = Some ext
              ∧ handed = attach_settings self ext)
    (extension_exporters settings)
    (List.filter (is_selected self) (extension_props (properties self))).
Proof.
  intros Hexts%engine_settings_Ok%select_exporters_Ok.
  cbn [properties assign_settings] in Hexts.
  eapply Forall2_impl; [apply Hexts|].
  intros handed prop Hhanded. cbn [ext_prop_to_exporter_map assign_settings] in Hhanded.
  rewrite lookup_fmap in Hhanded.
  destruct (ext_prop_to_exporter_map self !! prop.1) as [ext|]; [|done].
  exists ext. split; [done|]. by injection Hhanded as <-.
Qed.

(** X8: which exporters [execute] hands to the engine, and when building
    the list raises.  The list holds, for every extension property that is
    enabled and not held back by [materials_disable], in the order of the
    properties, the exporter the dictionary has under the property's name,
    with its settings assigned.  Building it raises [KeyError] exactly when
    the dictionary has no exporter under the name of such a property; a
    property that is not enabled, or is held back, may bear any name. *)
Theorem exporters_handed_to_the_engine (host : Host) (self : ExportGLTF) :
  let props := extension_props (properties self) in
  ((∃ settings, engine_settings host (assign_settings self) = Ok settings)
   ↔ ∀ prop, prop ∈ props → is_selected self prop = true →
       is_Some (ext_prop_to_exporter_map self !! prop.1))
  ∧ (∀ e, engine_settings host (assign_settings self) = Raise e → e = KeyError)
  ∧ (∀ settings, engine_settings host (assign_settings self) = Ok settings →
       Forall2
         (λ handed prop,
            ∃ ext, ext_prop_to_exporter_map self !! prop.1 = Some ext
                   ∧ handed = attach_settings self ext)
         (extension_exporters settings) (List.filter (is_selected self) props)).
Proof.
  intros props. split; [apply engine_settings_returns|].
  split; [intros e; apply engine_settings_Raise|apply engine_settings_handed].
Qed.

(** X9: after [update_extensions], building the list of exporters in
    [execute] cannot raise: it returns for the operator the method leaves,
    and for that operator with any of its properties changed since, as long
    as the extension properties still bear the names they were given and the
    dictionary is the same. *)
Theorem execute_after_update_extensions (host : Host) (self self' : ExportGLTF)
    (enables : list bool) (changed : ExportGLTF) :
  update_extensions self = Ok (self', enables) →
  ext_prop_to_exporter_map changed = ext_prop_to_exporter_map self' →
  (∀ prop, prop ∈ extension_props (properties changed) →
     prop.1 ∈ (extension_props (properties self')).*1) →
  ∃ settings, engine_settings host (assign_settings changed) = Ok settings.
Proof.
  intros Hupdate Hmap Hnames.
  destruct (update_extensions_spec _ _ _ Hupdate) as (Hprops & _ & Hkeys & _).
  apply engine_settings_returns.
  intros prop Hin _. rewrite Hmap, Hkeys. apply exporter_map_is_Some.
  rewrite <- Hprops. by apply Hnames.
Qed.

Lemma Forall2_fmap_eq {A B C : Type} (f : A → C) (g : B → C) (l : list A) (k : list B) :
  Forall2 (λ a b, f a = g b) l k → f <$> l = g <$> k.
Proof. induction 1; [done|]. rewrite !fmap_cons. congruence. Qed.

(** The names of the exporters handed to the engine are the names of the
    selected properties, when the dictionary leads to exporters of the name
    asked for. *)
Lemma selected_names (host : Host) (self : ExportGLTF) (settings : Settings) :
  (∀ name ext, ext_prop_to_exporter_map self !! name = Some ext →
     ext_meta_name ext = name) →
  engine_settings host (assign_settings self) = Ok settings →
  ext_meta_name <$> extension_exporters settings
  = (List.filter (is_selected self) (extension_props (properties self))).*1.
Proof.
  intros Hname Hsettings. apply Forall2_fmap_eq.
  eapply Forall2_impl; [by apply (engine_settings_handed host)|].
  intros handed prop (ext & Hext & ->). simpl. by apply Hname.
Qed.

Lemma elem_of_List_filter {A : Type} (f : A → bool) (l : list A) (x : A) :
  x ∈ List.filter f l ↔ x ∈ l ∧ f x = true.
Proof. rewrite !list_elem_of_In. apply filter_In. Qed.

(** X10: after [update_extensions], whether the exporter of the built-in
    material extension [KHR_technique_webgl] is handed to the engine is
    settled by the asset version and [materials_disable] alone: it is handed
    over exactly when there is an exporter of that name, the asset version
    is below 2.0 and materials are not disabled, whatever the extension
    properties said before. *)
Theorem technique_extension_follows_version (host : Host) (self self' : ExportGLTF)
    (enables : list bool) (settings : Settings) :
  update_extensions self = Ok (self', enables) →
  engine_settings host (assign_settings self') = Ok settings →
  "KHR_technique_webgl" ∈ ext_meta_name <$> extension_exporters settings
  ↔ "KHR_technique_webgl" ∈ ext_meta_name <$> ext_exporters self
    ∧ version_lt_2_0 (asset_version (properties self)) = true
    ∧ materials_disable (properties self) = false.
Proof.
  intros Hupdate Hsettings.
  destruct (update_extensions_spec _ _ _ Hupdate)
    as (Hnames & Hlen & Hmap & _ & Hversion & Hdisable).
  rewrite (selected_names host self' settings); [|
    by intros name ext Hext; rewrite Hmap in Hext;
       apply exporter_map_name in Hext as [? _] | done].
  assert (∀ prop, prop ∈ extension_props (properties self') →
            prop.1 = "KHR_technique_webgl" →
            is_selected self' prop
            = version_lt_2_0 (asset_version (properties self))
              && negb (materials_disable (properties self))) as Hsel.
  { intros prop Hin Hkhr.
    apply update_extensions_Ok in Hupdate as [_ ->].
    cbn [properties extension_props set_extension_props] in Hin.
    apply elem_of_zip_with in Hin as (ext & enable & -> & _ & _).
    unfold add_prop in *. cbn [fst] in Hkhr.
    unfold is_selected, is_builtin_mat_ext.
    cbn [fst snd properties set_extension_props asset_version materials_disable].
    rewrite Hkhr. cbn [String.eqb].
    replace (String.eqb "KHR_technique_webgl" "KHR_technique_webgl") with true
      by (symmetry; by apply String.eqb_eq).
    by destruct (version_lt_2_0 _), (materials_disable _). }
  rewrite list_elem_of_fmap. split.
  - intros (prop & Hkhr & [Hin Hselected]%elem_of_List_filter).
    rewrite (Hsel prop Hin) in Hselected by done.
    apply andb_true_iff in Hselected as [Hv Hd%negb_true_iff].
    split; [|done]. rewrite <- Hnames, Hkhr. apply list_elem_of_fmap.
    by exists prop.
  - intros (Hexists & Hv & Hd). rewrite <- Hnames in Hexists.
    apply list_elem_of_fmap in Hexists as (prop & Hkhr & Hin).
    exists prop. split; [done|]. apply elem_of_List_filter. split; [done|].
    rewrite (Hsel prop Hin) by done. by rewrite Hv, Hd.
Qed.

Lemma update_extensions_rebuilds_witness :
  (extension_props
     (properties
        (SampleExt.updated
           (SampleExt.operator V2_0 false [("KHR_materials_common", true)])))).*1
  = ["BLENDER_physics"; "KHR_materials_common"; "KHR_technique_webgl"].
Proof.
  exact (proj1 (update_extensions_rebuilds
                  (SampleExt.operator V2_0 false [("KHR_materials_common", true)])
                  (SampleExt.updated
                     (SampleExt.operator V2_0 false [("KHR_materials_common", true)]))
                  [false; true; false] eq_refl)).
Defined.

Lemma update_extensions_keeps_choices_witness :
  extension_props
    (properties
       (SampleExt.updated
          (SampleExt.operator V2_0 false
             [("KHR_materials_common", false); ("KHR_technique_webgl", true);
              ("KHR_materials_common", true)])))
  !! 1
  = Some ("KHR_materials_common", true).
Proof.
  destruct (update_extensions_keeps_choices
              (SampleExt.operator V2_0 false
                 [("KHR_materials_common", false); ("KHR_technique_webgl", true);
                  ("KHR_materials_common", true)])
              (SampleExt.updated
                 (SampleExt.operator V2_0 false
                    [("KHR_materials_common", false); ("KHR_technique_webgl", true);
                     ("KHR_materials_common", true)]))
              [false; true; true] 1 SampleExt.common eq_refl eq_refl)
    as (enable & Hprop & _ & Hother).
  rewrite Hprop. do 2 f_equal.
  destruct (Hother ltac:(done)) as (_ & _ & Hlast).
  apply (Hlast) with
    [("KHR_materials_common", false); ("KHR_technique_webgl", true)]
    (@nil (string * bool)).
  - intros [|[|[|j]]] later Hj Hlater; try lia; [by injection Hlater as <-|done].
  - reflexivity.
  - apply not_elem_of_nil.
Defined.

Lemma update_extensions_twice_witness :
  ∃ enables',
    update_extensions
      (SampleExt.updated
         (SampleExt.operator V1_0 false [("KHR_materials_common", true)]))
    = Ok (SampleExt.updated
            (SampleExt.operator V1_0 false [("KHR_materials_common", true)]),
          enables').
Proof.
  apply (update_extensions_twice
           (SampleExt.operator V1_0 false [("KHR_materials_common", true)]) _
           [false; true; false]).
  reflexivity.
Defined.

Lemma execute_after_update_extensions_witness :
  ∃ settings,
    engine_settings Sample.host
      (assign_settings
         (SampleExt.updated
            (SampleExt.operator V1_0 false [("KHR_materials_common", true)])))
    = Ok settings.
Proof.
  apply (execute_after_update_extensions Sample.host
           (SampleExt.operator V1_0 false [("KHR_materials_common", true)])
           (SampleExt.updated
              (SampleExt.operator V1_0 false [("KHR_materials_common", true)]))
           [false; true; false]).
  - reflexivity.
  - reflexivity.
  - intros prop Hin. apply list_elem_of_fmap. by exists prop.
Defined.

Lemma technique_extension_follows_version_witness :
  match
    engine_settings Sample.host
      (assign_settings
         (SampleExt.updated
            (SampleExt.operator V1_0 false [("KHR_technique_webgl", false)])))
  with
  | Ok settings =>
      "KHR_technique_webgl" ∈ ext_meta_name <$> extension_exporters settings
  | Raise _ => False
  end.
Proof.
  destruct (engine_settings _ _) as [settings|e] eqn:Hsettings.
  - apply (technique_extension_follows_version Sample.host
             (SampleExt.operator V1_0 false [("KHR_technique_webgl", false)])
             (SampleExt.updated
                (SampleExt.operator V1_0 false [("KHR_technique_webgl", false)]))
             [false; false; false] settings eq_refl Hsettings).
    split; [|done]. vm_compute. do 2 right. left.
  - vm_compute in Hsettings. discriminate.
Defined.

(** ** More on the engine's input *)

Lemma List_filter_filter {A : Type} (f g : A → bool) (l : list A) :
  List.filter f (List.filter g l) = List.filter (λ x, g x && f x) l.
Proof.
  induction l as [|x l IH]; [done|]. simpl.
  destruct (g x); simpl; [|done]. destruct (f x); by rewrite IH.
Qed.

Lemma List_filter_ext_true {A : Type} (f : A → bool) (l : list A) :
  (∀ x, f x = true) → List.filter f l = l.
Proof.
  intros Hf. induction l as [|x l IH]; [done|]. simpl. by rewrite Hf, IH.
Qed.

(** X11: the objects [execute] itself removes are exactly those that point
    to a camera, a lamp or a mesh while that category is disabled.  The
    objects that are left keep their order; an object that points to no
    datablock, or to one of another class, is never removed, whatever is
    disabled; and the scenes are always passed on. *)
Theorem own_filtering_keeps_other_objects (self : ExportGLTF) (bpy : Data) :
  let data := remove_disabled_objects self (collect_data self bpy) in
  objects data = List.filter (is_kept self) (objects bpy)
  ∧ scenes data = scenes bpy
  ∧ (∀ obj, isinstance_Camera (ob_data obj) = false →
            isinstance_Lamp (ob_data obj) = false →
            isinstance_Mesh (ob_data obj) = false →
            is_kept self obj = true)
  ∧ (∀ obj, ob_data obj = None → is_kept self obj = true).
Proof.
  intros data. subst data. split; [|split; [|split]].
  - unfold remove_disabled_objects, is_kept.
    destruct (enable_cameras (properties self)),
      (enable_lamps (properties self)), (enable_meshes (properties self));
      cbn [negb objects set_objects collect_data orb];
      rewrite ?List_filter_filter.
    1: symmetry; by apply List_filter_ext_true.
    all: apply filter_ext; intros obj;
      by destruct (isinstance_Camera (ob_data obj)), (isinstance_Lamp (ob_data obj)),
        (isinstance_Mesh (ob_data obj)).
  - unfold remove_disabled_objects. by repeat case_match.
  - intros obj Hc Hl Hm. unfold is_kept. rewrite Hc, Hl, Hm.
    by rewrite !orb_true_r.
  - intros obj Hnone. unfold is_kept. rewrite Hnone. simpl.
    by rewrite !orb_true_r.
Qed.

(** X12: with every category enabled, hidden objects exported, no
    restriction to the selection and no pruning, the engine is handed the
    collections of [bpy.data] as they are. *)
Theorem everything_enabled_passes_all (host : Host) (self : ExportGLTF) (bpy : Data) :
  let p := properties self in
  enable_actions p = true → enable_cameras p = true → enable_lamps p = true →
  enable_materials p = true → enable_meshes p = true → enable_textures p = true →
  nodes_export_hidden p = true → nodes_selected_only p = false →
  blocks_prune_unused p = false →
  engine_data host self bpy = bpy.
Proof.
  intros p Ha Hc Hl Hmat Hm Ht Hh Hs Hp.
  unfold engine_data, remove_disabled_objects, collect_data. fold p.
  rewrite Ha, Hc, Hl, Hmat, Hm, Ht, Hh, Hs, Hp. simpl. by destruct bpy.
Qed.

(** ** More on the completed document *)

(** No default of the table is [None]. *)
Lemma default_values_not_None (type : Z) (v : pyval) :
  _DEFAULT_VALUES_BY_PARAM_TYPE !! type = Some v → v ≠ PyNone.
Proof.
  intros Hv%elem_of_map_to_list.
  assert (Forall (λ item, item.2 ≠ PyNone)
            (map_to_list _DEFAULT_VALUES_BY_PARAM_TYPE)) as Hall.
  { vm_compute. repeat constructor; discriminate. }
  by apply (proj1 (Forall_forall _ _) Hall (type, v)).
Qed.

Lemma fill_default_value_set (parameter parameter' : TechParameter) :
  fill_default_value parameter = Ok parameter' →
  param_value parameter' ≠ Some PyNone
  ∧ param_type parameter' = param_type parameter
  ∧ param_rest parameter' = param_rest parameter.
Proof.
  intros Hfill%fill_default_value_Ok.
  destruct (param_value parameter) as [v|] eqn:Hvalue.
  - destruct v; try (subst parameter'; by rewrite Hvalue).
    destruct Hfill as (type & v & _ & Hv & ->). simpl.
    split; [|done]. intros [= ->]. by apply default_values_not_None in Hv.
  - subst parameter'. by rewrite Hvalue.
Qed.

(** X13: a completed document has no technique parameter left unset:
    whenever [assemble] returns, no parameter of any technique of the
    document has the value [None]. *)
Theorem completed_document_has_no_unset_parameter (host : Host)
    (settings : Settings) (gltf gltf' : Gltf) (t : string) (technique : Technique)
    (name : string) (parameter : TechParameter) :
  io_result (assemble host settings (Document gltf)) = Ok gltf' →
  gltf_techniques gltf' !! t = Some technique →
  technique_parameters technique !! name = Some parameter →
  param_value parameter ≠ Some PyNone.
Proof.
  intros Hrun Ht Hname.
  apply assemble_frame in Hrun as (_ & _ & _ & _ & _ & Hloop).
  pose proof (for_values_Ok _ _ _ Hloop t) as Htech.
  destruct (gltf_techniques gltf !! t) as [technique0|]; [|congruence].
  destruct Htech as (technique' & Hfill & Ht'). rewrite Ht in Ht'.
  injection Ht' as <-.
  apply fill_technique_Ok in Hfill as (parameters & Hparams & ->).
  simpl in Hname.
  pose proof (for_values_Ok _ _ _ Hparams name) as Hparam.
  destruct (technique_parameters technique0 !! name) as [parameter0|]; [|congruence].
  destruct Hparam as (parameter' & Hfill & Hname'). rewrite Hname in Hname'.
  injection Hname' as <-. by apply fill_default_value_set in Hfill as [? _].
Qed.

(** X14: completing the document adds and changes, and removes nothing:
    the keys of the document other than ['scenes'], ['nodes'], ['scene']
    and ['techniques'] are as the engine returned them; every scene keeps
    its keys other than ['nodes'], and no scene is added or removed; every
    technique keeps its keys other than ['parameters'], and no technique is
    added or removed; and every parameter keeps its ['type'] and its keys
    other than ['value'], and no parameter is added or removed. *)
Theorem completing_keeps_the_rest (host : Host) (settings : Settings)
    (gltf gltf' : Gltf) :
  io_result (assemble host settings (Document gltf)) = Ok gltf' →
  gltf_rest gltf' = gltf_rest gltf
  ∧ (∀ scene_id,
       scene_rest <$> gltf_scenes gltf' !! scene_id
       = scene_rest <$> gltf_scenes gltf !! scene_id)
  ∧ (∀ t,
       technique_rest <$> gltf_techniques gltf' !! t
       = technique_rest <$> gltf_techniques gltf !! t)
  ∧ (∀ t technique technique' name,
       gltf_techniques gltf !! t = Some technique →
       gltf_techniques gltf' !! t = Some technique' →
       (λ parameter, (param_type parameter, param_rest parameter))
         <$> technique_parameters technique' !! name
       = (λ parameter, (param_type parameter, param_rest parameter))
           <$> technique_parameters technique !! name).
Proof.
  intros Hrun.
  apply assemble_frame in Hrun as (Hscenes & _ & Hrest & _ & _ & Hloop).
  split; [done|]. split; [|split].
  - intros scene_id. rewrite Hscenes. case_match; [|done].
    destruct (add_root_nodes_loop_spec
                (matrix_tuple host (nodes_global_matrix settings)) gltf)
      as (Hin & Hout & _).
    destruct (gltf_scenes gltf !! scene_id) as [scene|] eqn:Hscene.
    + by rewrite (proj1 (Hin scene_id scene Hscene)).
    + by rewrite (Hout scene_id Hscene).
  - intros t. pose proof (for_values_Ok _ _ _ Hloop t) as Htech.
    destruct (gltf_techniques gltf !! t) as [technique|]; [|by rewrite Htech].
    destruct Htech as (technique' & Hfill & ->).
    by apply fill_technique_Ok in Hfill as (parameters & _ & ->).
  - intros t technique technique' name Ht Ht'.
    pose proof (for_values_Ok _ _ _ Hloop t) as Htech. rewrite Ht in Htech.
    destruct Htech as (technique'' & Hfill & Ht''). rewrite Ht' in Ht''.
    injection Ht'' as <-.
    apply fill_technique_Ok in Hfill as (parameters & Hparams & ->). simpl.
    pose proof (for_values_Ok _ _ _ Hparams name) as Hparam.
    destruct (technique_parameters technique !! name) as [parameter|];
      [|by rewrite Hparam].
    destruct Hparam as (parameter' & Hfill & ->). simpl.
    by apply fill_default_value_set in Hfill as (_ & -> & ->).
Qed.

(** ** More on the files *)




Lemma scoped_prints (current : option string) (prints t : list event) :
  Forall (λ e, is_print e = true) prints →
  scoped current (prints ++ t) = scoped current t.
Proof.
  induction 1 as [|e prints He _ IH]; [done|]. by destruct e.
Qed.

(** X16: whatever happens in [execute], files are handled as scoped
    resources: at most one file is open at a time, every write goes to the
    file that is open, and every file that was opened is closed again, also
    when the call raises. *)
Theorem execute_closes_its_files (host : Host) (world : World) (self : ExportGLTF) :
  scoped None (io_trace (execute host world self)) = true.
Proof.
  destruct (execute_cases host world self)
    as [(prints & e & -> & Hprints)
       |(settings & gltf0 & gltf & prints & Hsettings & Hengine & Hassemble & ->)];
    cbn [io_trace].
  { rewrite <- (app_nil_r prints). by rewrite (scoped_prints _ _ _ Hprints). }
  pose proof (assemble_prints host settings (Document gltf0)) as Hprints.
  rewrite Hassemble in Hprints; cbn [io_trace] in Hprints.
  rewrite (scoped_prints _ _ _ Hprints). cbn [scoped].
  rewrite write_files_trace.
  destruct (gltf_export_binary (properties self)); cbn [io_trace].
  { simpl. by rewrite !bool_decide_eq_true_2. }
  destruct (json_dump host gltf _), (pretty_print (properties self));
    simpl; by rewrite !bool_decide_eq_true_2.
Qed.

(** ** More on [check] *)

Lemma str_app_last (a b : string) (c d : ascii) :
  a +:+ String c "" = b +:+ String d "" → c = d.
Proof.
  revert b. induction a as [|x a IH]; intros [|y b].
  - by intros [= ->].
  - rewrite str_app_nil, str_app_cons. intros [= _ Heq].
    destruct b; rewrite ?str_app_nil, ?str_app_cons in Heq; done.
  - rewrite str_app_nil, str_app_cons. intros [= _ Heq].
    destruct a; rewrite ?str_app_nil, ?str_app_cons in Heq; done.
  - rewrite !str_app_cons. intros [= _ Heq]. by apply (IH b).
Qed.

Lemma endswith_glb_gltf (stem : string) : endswith (stem +:+ ".glb") ".gltf" = false.
Proof.
  destruct (endswith (stem +:+ ".glb") ".gltf") eqn:Hends; [|done].
  apply endswith_spec in Hends as [stem' Heq].
  change ".glb" with (".gl" +:+ "b") in Heq.
  change ".gltf" with (".glt" +:+ "f") in Heq.
  rewrite <- !str_app_assoc in Heq. by apply str_app_last in Heq.
Qed.

Lemma endswith_gltf_glb (stem : string) : endswith (stem +:+ ".gltf") ".glb" = false.
Proof.
  destruct (endswith (stem +:+ ".gltf") ".glb") eqn:Hends; [|done].
  apply endswith_spec in Hends as [stem' Heq].
  change ".glb" with (".gl" +:+ "b") in Heq.
  change ".gltf" with (".glt" +:+ "f") in Heq.
  rewrite <- !str_app_assoc in Heq. by apply str_app_last in Heq.
Qed.

(** After the first step of [check] the path does not end in the extension
    of the other mode. *)
Lemma check_extension_settled (self : ExportGLTF) (redraw : bool) :
  let p' := properties (check_extension self redraw).1 in
  gltf_export_binary p' = gltf_export_binary (properties self)
  ∧ gltf_export_binary p' && endswith (filepath p') ".gltf" = false
  ∧ negb (gltf_export_binary p') && endswith (filepath p') ".glb" = false.
Proof.
  intros p'. subst p'. unfold check_extension.
  destruct (gltf_export_binary (properties self)) eqn:Hbinary; simpl.
  - destruct (endswith (filepath (properties self)) ".gltf") eqn:Hends; simpl.
    + rewrite Hbinary. split; [done|]. split; [|done]. simpl.
      apply endswith_spec in Hends as [stem ->].
      rewrite rewrite_gltf_to_glb. apply endswith_glb_gltf.
    + by rewrite Hbinary, Hends.
  - destruct (endswith (filepath (properties self)) ".glb") eqn:Hends; simpl.
    + rewrite Hbinary. split; [done|]. split; [done|]. simpl.
      apply endswith_spec in Hends as [stem ->].
      rewrite rewrite_glb_to_gltf. apply endswith_gltf_glb.
    + by rewrite Hbinary, Hends.
Qed.

(** X17: the two steps of [check] settle the operator.  After them the
    path does not end in the extension of the other mode and binary export
    of embedded buffers has them combined, so that going through the two
    steps again changes nothing; and the steps change nothing of the
    operator but [filepath] and [buffers_combine_data]. *)
Theorem check_steps_settle (self : ExportGLTF) (redraw redraw' : bool) :
  let step1 := check_extension self redraw in
  let own := (check_buffers step1.1 step1.2).1 in
  check_extension own redraw' = (own, redraw')
  ∧ check_buffers own redraw' = (own, redraw')
  ∧ set_properties
      (set_filepath (filepath (properties self))
         (set_buffers_combine_data (buffers_combine_data (properties self))
            (properties own))) own
    = self.
Proof.
  intros step1 own.
  destruct (check_extension_settled self redraw) as (Hbinary & Hgltf & Hglb).
  fold step1 in Hbinary, Hgltf, Hglb.
  destruct (check_buffers_filepath step1.1 step1.2) as [Hpath Hbinary'].
  fold own in Hpath, Hbinary'.
  split; [|split].
  - unfold check_extension. by rewrite Hpath, Hbinary', Hgltf, Hglb.
  - subst own. unfold check_buffers.
    destruct (gltf_export_binary (properties step1.1)
              && buffers_embed_data (properties step1.1)
              && negb (buffers_combine_data (properties step1.1))) eqn:Hconflict;
      simpl.
    + apply andb_true_iff in Hconflict as [[Hb He]%andb_true_iff _].
      by rewrite Hb, He.
    + by rewrite Hconflict.
  - subst own step1. unfold check_buffers, check_extension.
    destruct self as [[] ? ? ? ? ?]. simpl. by repeat case_match.
Qed.

Lemma everything_enabled_passes_all_witness :
  engine_data Sample.host SampleExt.unfiltered Sample.bpy = Sample.bpy.
Proof.
  apply (everything_enabled_passes_all Sample.host SampleExt.unfiltered Sample.bpy);
    reflexivity.
Defined.

Lemma completed_document_has_no_unset_parameter_witness :
  match gltf_techniques (Sample.assembled Sample.y_up) !! "technique_Material" with
  | Some technique =>
      match technique_parameters technique !! "texMatrix" with
      | Some parameter => param_value parameter ≠ Some PyNone
      | None => False
      end
  | None => False
  end.
Proof.
  destruct (gltf_techniques (Sample.assembled Sample.y_up) !! "technique_Material")
    as [technique|] eqn:Ht; [|by vm_compute in Ht].
  destruct (technique_parameters technique !! "texMatrix") as [parameter|] eqn:Hname.
  - apply (completed_document_has_no_unset_parameter Sample.host
             (Sample.settings_of
                (Sample.keywords_of "/tmp/scene.gltf" false false true true true true)
                Sample.y_up)
             (Sample.document_of Sample.bpy) (Sample.assembled Sample.y_up)
             "technique_Material" technique "texMatrix" parameter eq_refl Ht Hname).
  - vm_compute in Ht. injection Ht as <-. by vm_compute in Hname.
Defined.

Lemma completing_keeps_the_rest_witness :
  gltf_rest (Sample.assembled Sample.y_up) = gltf_rest (Sample.document_of Sample.bpy).
Proof.
  exact (proj1 (completing_keeps_the_rest Sample.host
                  (Sample.settings_of
                     (Sample.keywords_of "/tmp/scene.gltf" false false true true true true)
                     Sample.y_up)
                  (Sample.document_of Sample.bpy) (Sample.assembled Sample.y_up)
                  eq_refl)).
Defined.

(** ** [draw] *)

Lemma extension_loop_cons (ui : Ui) (self : ExportGLTF) (i : nat)
    (prop : string * bool) (props : list (string * bool)) :
  extension_loop ui self i (prop :: props)
  = match extension_items ui self i prop with
    | Raise e => ([], Some (Exn e))
    | Ok items =>
        ((items ++ (extension_loop ui self (S i) props).1),
         (extension_loop ui self (S i) props).2)
    end.
Proof.
  simpl. destruct (extension_items ui self i prop); [|done].
  by destruct (extension_loop ui self (S i) props).
Qed.

(** The loop of [draw] does not raise when the dictionary has an exporter
    under the name of every property. *)
Lemma extension_loop_returns (ui : Ui) (self : ExportGLTF) (i : nat)
    (props : list (string * bool)) :
  (∀ prop, prop ∈ props → is_Some (ext_prop_to_exporter_map self !! prop.1)) →
  (extension_loop ui self i props).2 = None.
Proof.
  revert i. induction props as [|prop props IH]; intros i Hall; [done|].
  rewrite extension_loop_cons. unfold extension_items.
  destruct (Hall prop) as [ext ->]; [by left|].
  destruct (String.eqb (ext_meta_name ext) "KHR_technique_webgl"); simpl;
    apply IH; intros prop' Hin; apply Hall; by right.
Qed.

(** The rows the loop adds: one for every property whose exporter is not
    the one passed over, under the property's name. *)
Lemma extension_loop_rows (ui : Ui) (self : ExportGLTF) (i : nat)
    (props : list (string * bool)) :
  (∀ prop, prop ∈ props →
     ∃ ext, ext_prop_to_exporter_map self !! prop.1 = Some ext
            ∧ ext_meta_name ext = prop.1) →
  omap row_name (extension_loop ui self i props).1
  = List.filter (λ name, negb (String.eqb name "KHR_technique_webgl")) props.*1.
Proof.
  revert i. induction props as [|prop props IH]; intros i Hall; [done|].
  rewrite extension_loop_cons. unfold extension_items.
  destruct (Hall prop) as (ext & -> & Hname); [by left|].
  rewrite Hname. rewrite fmap_cons. cbn [List.filter].
  assert (omap row_name (extension_loop ui self (S i) props).1
          = List.filter (λ name, negb (String.eqb name "KHR_technique_webgl"))
              props.*1) as Hrest.
  { apply IH. intros prop' Hin. apply Hall. by right. }
  destruct (String.eqb prop.1 "KHR_technique_webgl"); cbn [negb fst].
  - by rewrite app_nil_l.
  - rewrite <- app_comm_cons. cbn [omap list_omap row_name app].
    f_equal. rewrite omap_app, Hrest.
    destruct prop.2; [|done].
    destruct (extension_settings (properties self) !! prop.1); [|done].
    by case_bool_decide.
Qed.

(** What [draw] does after [update_extensions]. *)
Lemma draw_unfold (ui : Ui) (self : ExportGLTF) :
  draw ui self
  = match update_extensions self with
    | Raise e => ([], Draw_raises (Exn e))
    | Ok (self', _) =>
        let first := [enable_box; axis_box; nodes_box; meshes_box] in
        let materials := (materials_box self').1 in
        match (materials_box self').2 with
        | Some e => (first ++ [materials], Draw_raises e)
        | None =>
            let middle :=
              [materials; animations_box; images_box self'; buffers_box self'] in
            let extensions :=
              Ui_box
                [Ui_column false true
                   (Ui_label "Extensions:" "PLUGIN"
                    :: (extension_loop ui self' 0
                          (extension_props (properties self'))).1)] in
            match (extension_loop ui self' 0
                     (extension_props (properties self'))).2 with
            | Some e => (first ++ middle ++ [extensions], Draw_raises e)
            | None =>
                (first ++ middle ++ [extensions; output_box self'], Drawn self')
            end
        end
    end.
Proof.
  unfold draw. destruct (update_extensions self) as [[self' enables]|e]; [|done].
  destruct (materials_box self') as [materials [e|]]; [done|].
  unfold extensions_box.
  by destruct (extension_loop ui self' 0 (extension_props (properties self')))
    as [items [e|]].
Qed.

Lemma materials_box_raises (self : ExportGLTF) :
  (materials_box self).2
  = if version_lt_2_0 (asset_version (properties self)) then
      match extension_settings (properties self) !! "KHR_technique_webgl" with
      | Some _ => None
      | None => Some AttributeError
      end
    else None.
Proof. unfold materials_box. by repeat case_match. Qed.

(** After [update_extensions] the loop of [draw] finds an exporter under
    the name of every property. *)
Lemma updated_props_have_exporters (self self' : ExportGLTF) (enables : list bool)
    (prop : string * bool) :
  update_extensions self = Ok (self', enables) →
  prop ∈ extension_props (properties self') →
  ∃ ext, ext_prop_to_exporter_map self' !! prop.1 = Some ext
         ∧ ext_meta_name ext = prop.1.
Proof.
  intros Hupdate Hin.
  destruct (update_extensions_spec _ _ _ Hupdate) as (Hnames & _ & Hmap & _).
  assert (is_Some (ext_prop_to_exporter_map self' !! prop.1)) as [ext Hext].
  { rewrite Hmap. apply exporter_map_is_Some. rewrite <- Hnames.
    apply list_elem_of_fmap. by exists prop. }
  exists ext. split; [done|]. rewrite Hmap in Hext.
  by apply exporter_map_name in Hext as [? _].
Qed.

Lemma updated_settings (self self' : ExportGLTF) (enables : list bool) :
  update_extensions self = Ok (self', enables) →
  extension_settings (properties self') = extension_settings (properties self)
  ∧ gltf_export_binary (properties self') = gltf_export_binary (properties self)
  ∧ buffers_embed_data (properties self') = buffers_embed_data (properties self)
  ∧ buffers_combine_data (properties self') = buffers_combine_data (properties self)
  ∧ filepath (properties self') = filepath (properties self).
Proof. by intros [_ ->]%update_extensions_Ok. Qed.

(** X18: how [draw] ends.  It raises [KeyError], with nothing drawn, exactly
    when [update_extensions] does; it raises [AttributeError] exactly when
    [update_extensions] returns, the asset version is below 2.0 and the
    operator has no settings group of the name [KHR_technique_webgl]; and
    otherwise it returns, with ten boxes drawn, and leaves the operator as
    [update_extensions] leaves it.  Its own loop over the extension
    properties never raises. *)
Theorem draw_ends (ui : Ui) (self : ExportGLTF) :
  let p := properties self in
  match (draw ui self).2 with
  | Drawn self' =>
      (∃ enables, update_extensions self = Ok (self', enables))
      ∧ (version_lt_2_0 (asset_version p) = true →
         is_Some (extension_settings p !! "KHR_technique_webgl"))
      ∧ length (draw ui self).1 = 10
  | Draw_raises (Exn e) =>
      e = KeyError
      ∧ update_extensions self = Raise KeyError
      ∧ (draw ui self).1 = []
  | Draw_raises AttributeError =>
      (∃ updated, update_extensions self = Ok updated)
      ∧ version_lt_2_0 (asset_version p) = true
      ∧ extension_settings p !! "KHR_technique_webgl" = None
  end.
Proof.
  intros p. rewrite draw_unfold.
  destruct (update_extensions self) as [[self' enables]|e] eqn:Hupdate.
  2:{ cbn [snd fst].
      assert (e = KeyError) as ->; [|done].
      revert Hupdate. unfold update_extensions.
      cbn [set_ext_prop_to_exporter_map properties ext_exporters].
      destruct (for_each _ _ _) as [enables|e'] eqn:Hloop; [done|].
      intros [= <-]. by apply for_each_set_enable_Raise in Hloop. }
  destruct (update_extensions_spec _ _ _ Hupdate) as (_ & _ & _ & _ & Hversion & _).
  destruct (updated_settings _ _ _ Hupdate) as (Hsettings & _).
  cbn zeta. rewrite materials_box_raises, Hversion, Hsettings. fold p.
  destruct (version_lt_2_0 (asset_version p)) eqn:Hv.
  - destruct (extension_settings p !! "KHR_technique_webgl") as [settings|] eqn:Hs.
    + rewrite (extension_loop_returns ui self' 0).
      * cbn [snd fst]. split; [by exists enables|]. split; [by eexists|done].
      * intros prop Hin.
        destruct (updated_props_have_exporters _ _ _ _ Hupdate Hin) as (ext & -> & _).
        by eexists.
    + cbn [snd]. split; [by eexists|done].
  - rewrite (extension_loop_returns ui self' 0).
    + cbn [snd fst]. split; [by exists enables|]. split; [done|done].
    + intros prop Hin.
      destruct (updated_props_have_exporters _ _ _ _ Hupdate Hin) as (ext & -> & _).
      by eexists.
Qed.

Lemma draw_Drawn (ui : Ui) (self self' : ExportGLTF) (layout : list item) :
  draw ui self = (layout, Drawn self') →
  (∃ enables, update_extensions self = Ok (self', enables))
  ∧ layout !! 7 = Some (buffers_box self')
  ∧ layout !! 8
    = Some (Ui_box
              [Ui_column false true
                 (Ui_label "Extensions:" "PLUGIN"
                  :: (extension_loop ui self' 0
                        (extension_props (properties self'))).1)]).
Proof.
  rewrite draw_unfold.
  destruct (update_extensions self) as [[self'' enables]|e] eqn:Hupdate; [|done].
  cbn zeta. destruct (materials_box self'').2; [done|].
  destruct (extension_loop ui self'' 0 _).2; [done|].
  intros [= <- <-]. split; [by exists enables|done].
Qed.

(** X19: when [draw] returns, the box of the buffers shows the property
    [buffers_combine_data] in a column of its own, which is disabled (greyed
    out) exactly when binary export and embedding are both on.  That is
    when the user cannot reach the flag and the buffer step of [check]
    answers for it: after that step the flag is on; while the column is
    enabled, the step leaves the operator as it is. *)
Theorem combine_toggle_follows_check (ui : Ui) (self self' : ExportGLTF)
    (layout : list item) (redraw : bool) :
  draw ui self = (layout, Drawn self') →
  let p := properties self in
  let enabled := negb (gltf_export_binary p) || negb (buffers_embed_data p) in
  layout !! 7
  = Some (Ui_box
            [Ui_column false true
               [ Ui_label "Buffers:" "SORTALPHA";
                 self_prop "buffers_embed_data";
                 Ui_column false enabled [self_prop "buffers_combine_data"] ]])
  ∧ (enabled = false →
     buffers_combine_data (properties (check_buffers self' redraw).1) = true)
  ∧ (enabled = true → check_buffers self' redraw = (self', redraw)).
Proof.
  intros ([enables Hupdate] & Hbox & _)%draw_Drawn p enabled. subst enabled p.
  destruct (updated_settings _ _ _ Hupdate) as (_ & Hbinary & Hembed & _).
  split; [|split].
  - rewrite Hbox. unfold buffers_box. by rewrite Hbinary, Hembed.
  - intros [Hb%negb_false_iff He%negb_false_iff]%orb_false_iff.
    unfold check_buffers. rewrite Hbinary, Hembed, Hb, He.
    by destruct (buffers_combine_data (properties self')) eqn:Hcombine.
  - intros Henabled. unfold check_buffers. rewrite Hbinary, Hembed.
    destruct (gltf_export_binary (properties self)),
      (buffers_embed_data (properties self)); simpl in *; congruence.
Qed.

(** X20: when [draw] returns, the column of the extensions has one row for
    every exporter of [ext_exporters] but those named
    [KHR_technique_webgl], in the order of [ext_exporters] and under the
    exporter's name: the built-in material extension is never offered. *)
Theorem extension_rows (ui : Ui) (self self' : ExportGLTF) (layout : list item) :
  draw ui self = (layout, Drawn self') →
  ∃ items,
    layout !! 8
    = Some (Ui_box
              [Ui_column false true (Ui_label "Extensions:" "PLUGIN" :: items)])
    ∧ omap row_name items
      = List.filter (λ name, negb (String.eqb name "KHR_technique_webgl"))
          (ext_meta_name <$> ext_exporters self).
Proof.
  intros ([enables Hupdate] & _ & Hbox)%draw_Drawn.
  eexists. split; [done|].
  destruct (update_extensions_spec _ _ _ Hupdate) as (<- & _).
  apply extension_loop_rows. intros prop Hin.
  by apply (updated_props_have_exporters _ _ _ _ Hupdate).
Qed.

Lemma combine_toggle_follows_check_witness :
  (draw SampleExt.ui
     (SampleExt.operator V1_0 false [("KHR_materials_common", true)])).1 !! 7
  = Some (Ui_box
            [Ui_column false true
               [ Ui_label "Buffers:" "SORTALPHA";
                 self_prop "buffers_embed_data";
                 Ui_column false true [self_prop "buffers_combine_data"] ]]).
Proof.
  exact (proj1 (combine_toggle_follows_check SampleExt.ui
                  (SampleExt.operator V1_0 false [("KHR_materials_common", true)])
                  (SampleExt.updated
                     (SampleExt.operator V1_0 false [("KHR_materials_common", true)]))
                  (draw SampleExt.ui
                     (SampleExt.operator V1_0 false
                        [("KHR_materials_common", true)])).1
                  false eq_refl)).
Defined.

Lemma extension_rows_witness :
  ∃ items,
    (draw SampleExt.ui
       (SampleExt.operator V1_0 false [("KHR_materials_common", true)])).1 !! 8
    = Some (Ui_box
              [Ui_column false true (Ui_label "Extensions:" "PLUGIN" :: items)])
    ∧ omap row_name items = ["BLENDER_physics"; "KHR_materials_common"].
Proof.
  apply (extension_rows SampleExt.ui
           (SampleExt.operator V1_0 false [("KHR_materials_common", true)])
           (SampleExt.updated
              (SampleExt.operator V1_0 false [("KHR_materials_common", true)]))).
  reflexivity.
Defined.

(** On the sample operator the settings of the technique extension are
    drawn in the box of the materials, and the row of the physics extension
    carries the draft mark. *)
Example draw_sample :
  (draw SampleExt.ui
     (SampleExt.operator V1_0 false [("BLENDER_physics", false)])).1 !! 4
  = Some (Ui_box
            [Ui_column false true
               [ Ui_label "Materials:" "MATERIAL_DATA";
                 self_prop "materials_disable";
                 Ui_prop (Owner_settings "KHR_technique_webgl") "embed_shaders"
                   None "NONE" false true ]])
  ∧ (draw SampleExt.ui
       (SampleExt.operator V1_0 false [("BLENDER_physics", false)])).1 !! 8
    = Some (Ui_box
              [Ui_column false true
                 [ Ui_label "Extensions:" "PLUGIN";
                   Ui_row false
                     [ Ui_prop (Owner_extension_prop 0) "enable"
                         (Some "BLENDER_physics") "NONE" false true;
                       Ui_prop Owner_self "draft_prop" None "ERROR" false false;
                       Ui_operator "wm.url_open" "INFO" false
                         (PyStr "https://github.com/KhronosGroup/glTF") ];
                   Ui_row false
                     [ Ui_prop (Owner_extension_prop 1) "enable"
                         (Some "KHR_materials_common") "NONE" false true;
                       Ui_operator "wm.url_open" "INFO" false
                         (PyStr "https://github.com/KhronosGroup/glTF") ] ]]).
Proof. split; by vm_compute. Qed.

(** ** The order of the extensions *)

Lemma insert_by_name_Permutation (ext : Exporter) (exts : list Exporter) :
  insert_by_name ext exts ≡ₚ ext :: exts.
Proof.
  induction exts as [|ext' exts IH]; [done|]. simpl.
  case_bool_decide; [done|]. by rewrite IH, Permutation_swap.
Qed.

Lemma sorted_by_name_Permutation (instances : list Exporter) :
  sorted_by_name instances ≡ₚ instances.
Proof.
  induction instances as [|ext instances IH]; [done|]. simpl.
  by rewrite insert_by_name_Permutation, IH.
Qed.

Lemma insert_by_name_sorted (ext : Exporter) (exts : list Exporter) :
  StronglySorted String.le (ext_meta_name <$> exts) →
  StronglySorted String.le (ext_meta_name <$> insert_by_name ext exts).
Proof.
  induction exts as [|ext' exts IH]; intros Hsorted.
  { simpl. by repeat constructor. }
  simpl. case_bool_decide as Hle.
  - rewrite fmap_cons. constructor; [done|].
    rewrite fmap_cons. constructor; [done|].
    apply StronglySorted_inv in Hsorted as [_ Hall].
    eapply Forall_impl; [done|]. intros name Hname. by etrans.
  - rewrite fmap_cons in Hsorted.
    apply StronglySorted_inv in Hsorted as [Hsorted Hall].
    rewrite fmap_cons. constructor; [by apply IH|].
    rewrite insert_by_name_Permutation, fmap_cons. constructor; [|done].
    by destruct (total String.le (ext_meta_name ext) (ext_meta_name ext')).
Qed.

Lemma sorted_by_name_sorted (instances : list Exporter) :
  StronglySorted String.le (ext_meta_name <$> sorted_by_name instances).
Proof.
  induction instances as [|ext instances IH]; [constructor|].
  simpl. by apply insert_by_name_sorted.
Qed.

(** Instances of the same name keep their order: the model sorts as
    [sorted] does. *)
Lemma insert_by_name_stable (name : string) (ext : Exporter) (exts : list Exporter) :
  List.filter (λ e, String.eqb (ext_meta_name e) name) (insert_by_name ext exts)
  = List.filter (λ e, String.eqb (ext_meta_name e) name) (ext :: exts).
Proof.
  induction exts as [|ext' exts IH]; [done|]. simpl.
  case_bool_decide as Hle; [done|]. simpl. simpl in IH. rewrite IH.
  destruct (String.eqb (ext_meta_name ext') name) eqn:Hname'; [|done].
  destruct (String.eqb (ext_meta_name ext) name) eqn:Hname; [|done].
  apply String.eqb_eq in Hname, Hname'. exfalso. apply Hle.
  by rewrite Hname, Hname'.
Qed.

Lemma sorted_by_name_stable (name : string) (instances : list Exporter) :
  List.filter (λ e, String.eqb (ext_meta_name e) name) (sorted_by_name instances)
  = List.filter (λ e, String.eqb (ext_meta_name e) name) instances.
Proof.
  induction instances as [|ext instances IH]; [done|].
  simpl. rewrite insert_by_name_stable. simpl. by rewrite IH.
Qed.

Lemma StronglySorted_List_filter {A : Type} (R : relation A) (f : A → bool)
    (l : list A) :
  StronglySorted R l → StronglySorted R (List.filter f l).
Proof.
  induction 1 as [|x l Hsorted IH Hall]; [constructor|]. simpl.
  destruct (f x); [|done]. constructor; [done|].
  apply Forall_forall. intros y [Hin _]%elem_of_List_filter.
  by apply (proj1 (Forall_forall _ _) Hall).
Qed.

(** X21: the extensions are listed by name.  With [ext_exporters] as the
    class sets it up, sorted by name, [update_extensions] leaves the
    extension properties in the order of their names, one for every
    instance, and the rows [draw] shows in the column of the extensions are
    in the order of their names as well. *)
Theorem extensions_in_name_order (ui : Ui) (instances : list Exporter)
    (self self' : ExportGLTF) (layout : list item) :
  ext_exporters self = sorted_by_name instances →
  draw ui self = (layout, Drawn self') →
  StronglySorted String.le (extension_props (properties self')).*1
  ∧ (extension_props (properties self')).*1 ≡ₚ ext_meta_name <$> instances
  ∧ ∃ items,
      layout !! 8
      = Some (Ui_box
                [Ui_column false true (Ui_label "Extensions:" "PLUGIN" :: items)])
      ∧ StronglySorted String.le (omap row_name items).
Proof.
  intros Hclass ([enables Hupdate] & _ & Hbox)%draw_Drawn.
  destruct (update_extensions_spec _ _ _ Hupdate) as (Hnames & _).
  rewrite Hnames, Hclass.
  split; [apply sorted_by_name_sorted|].
  split; [by rewrite sorted_by_name_Permutation|].
  eexists. split; [done|].
  rewrite extension_loop_rows.
  - apply StronglySorted_List_filter. rewrite Hnames, Hclass.
    apply sorted_by_name_sorted.
  - intros prop Hin. by apply (updated_props_have_exporters _ _ _ _ Hupdate).
Qed.

Lemma extensions_in_name_order_witness :
  StronglySorted String.le
    (extension_props
       (properties
          (SampleExt.updated
             (SampleExt.operator V1_0 false [("KHR_materials_common", true)])))).*1.
Proof.
  exact (proj1 (extensions_in_name_order SampleExt.ui
                  [SampleExt.technique; SampleExt.blend; SampleExt.common]
                  (SampleExt.operator V1_0 false [("KHR_materials_common", true)])
                  (SampleExt.updated
                     (SampleExt.operator V1_0 false [("KHR_materials_common", true)]))
                  (draw SampleExt.ui
                     (SampleExt.operator V1_0 false
                        [("KHR_materials_common", true)])).1
                  eq_refl eq_refl)).
Defined.
